(** * EZModbus, pico-sdk examples: the Modbus TCP echo server and client tester

    A shallow embedding of [examples/pico-sdk/modbus_echo_server.py] and
    [examples/pico-sdk/modbus_client_tester.py], and the properties of the
    register store, of the result recorder and of the test sequence.

    Python integers are unbounded and are modelled by [Z] (register values,
    addresses) or [nat] (counters that only grow); strings are [string];
    a Python exception is an [Outcome] other than [Return]. *)

From Stdlib Require Import ZArith List String Ascii DecimalString Bool Lia.
Import ListNotations.

Local Open Scope Z_scope.
Local Open Scope string_scope.

(** ** What the two scripts share: Python values and the logging module *)

Module Py.

(** [str(n)] for an integer, as an f-string renders it. *)
Definition str_int (n : Z) : string := NilZero.string_of_int (Z.to_int n).

Definition str_nat (n : nat) : string := str_int (Z.of_nat n).

(** [str(l)] for a list of integers: ["[2000, 2001, 2002]"]. *)
Definition str_list (l : list Z) : string :=
  "[" ++ String.concat ", " (map str_int l) ++ "]".

(** ["=" * 60] *)
Fixpoint str_repeat (s : string) (n : nat) : string :=
  match n with
  | O => ""
  | S k => s ++ str_repeat s k
  end.

Definition newline : string := String (ascii_of_nat 10) "".

(** How a call ends: it returns, it raises an [Exception] (carrying what
    [str(e)] prints), or it raises [KeyboardInterrupt], which is a
    [BaseException] and so escapes every [except Exception]. *)
Inductive Outcome (A : Type) : Type :=
| Return (a : A)
| Raise (e : string)
| KeyboardInterrupt.
Arguments Return {A} a.
Arguments Raise {A} e.
Arguments KeyboardInterrupt {A}.

(** A record handed to [logging]: level and message. *)
Inductive Level : Type := INFO | ERROR.
Definition LogRecord : Type := (Level * string)%type.

End Py.
Import Py.

(** ** modbus_echo_server.py *)

Module EchoServer.

Definition SERVER_PORT : Z := 5020.
Definition SLAVE_ID : Z := 1.

Definition REGISTER_START : Z := 0.
Definition REGISTER_COUNT : nat := 200.
Definition INITIAL_VALUE : Z := 1000.

(** The [values] argument of [setValues]: a list, or a single value;
    [isinstance(values, list)] tells them apart. *)
Inductive Values : Type :=
| PyList (l : list Z)
| PyInt (v : Z).

(** *** class LoggingDataBlock, over whatever its superclass does *)

Module LoggingDataBlock.
Section Over_superclass.

(** The superclass: the instance's own state, what its two methods
    return and how a returned read prints in an f-string. *)
Variable Block : Type.
Variable Read : Type.
Variable Ack : Type.
Variable str_read : Read -> string.
Variable super_getValues : Block -> Z -> nat -> Block * Outcome Read.
Variable super_setValues : Block -> Z -> Values -> Block * Outcome Ack.

(** A method runs on the instance and on the module's logger. *)
Definition Method (A : Type) : Type :=
  Block * list LogRecord -> (Block * list LogRecord) * Outcome A.

Definition log_info (msg : string) : Method unit :=
  fun '(self, log) => ((self, (log ++ [(INFO, msg)])%list), Return tt).

Definition setValues (address : Z) (values : Values) : Method Ack :=
  fun st =>
    let '(self, log) :=
      fst (match values with
           | PyList l =>
               log_info ("WRITE: Address=" ++ str_int address
                         ++ ", Count=" ++ str_nat (List.length l)
                         ++ ", Values=" ++ str_list l) st
           | PyInt v =>
               log_info ("WRITE: Address=" ++ str_int address
                         ++ ", Value=" ++ str_int v) st
           end) in
    let '(self', o) := super_setValues self address values in
    ((self', log), o).

Definition getValues (address : Z) (count : nat) : Method Read :=
  fun '(self, log) =>
    match super_getValues self address count with
    | (self', Return values) =>
        (fst (log_info ("READ: Address=" ++ str_int address
                        ++ ", Count=" ++ str_nat count
                        ++ ", Values=" ++ str_read values) (self', log)),
         Return values)
    | (self', Raise e) => ((self', log), Raise e)
    | (self', KeyboardInterrupt) => ((self', log), KeyboardInterrupt)
    end.

End Over_superclass.
Arguments setValues {Block Ack} super_setValues address values _.
Arguments getValues {Block Read} str_read super_getValues address count _.
End LoggingDataBlock.

(** *** The register store of pymodbus

    [ModbusSequentialDataBlock] and [ModbusSlaveContext] are classes of the
    pymodbus package; the repository holds none of their code.  What they
    store, return and reject is taken from the register-store contract of
    the specification (sections 3 and 4.1). *)

(** Modelled from the spec: the exception codes of a response (section 3);
    the type is pymodbus's, which is not part of this repository. *)
Inductive ExceptionCode : Type :=
| ILLEGAL_FUNCTION
| ILLEGAL_DATA_ADDRESS
| ILLEGAL_DATA_VALUE
| SLAVE_DEVICE_FAILURE.

(** Modelled from the spec: what the store hands back, a payload or a
    typed exception value (section 7: the store never throws across its
    boundary for invalid input); the type is pymodbus's, which is not part
    of this repository. *)
Inductive Result (A : Type) : Type :=
| Ok (a : A)
| Exception (code : ExceptionCode).
Arguments Ok {A} a.
Arguments Exception {A} code.

Definition str_code (code : ExceptionCode) : string :=
  match code with
  | ILLEGAL_FUNCTION => "ILLEGAL_FUNCTION"
  | ILLEGAL_DATA_ADDRESS => "ILLEGAL_DATA_ADDRESS"
  | ILLEGAL_DATA_VALUE => "ILLEGAL_DATA_VALUE"
  | SLAVE_DEVICE_FAILURE => "SLAVE_DEVICE_FAILURE"
  end.

(** How a returned read prints in the f-string of the logging block: the
    list of values or, for an exception value, the name of its code. *)
Definition str_read (r : Result (list Z)) : string :=
  match r with
  | Ok l => str_list l
  | Exception code => str_code code
  end.

Module ModbusSequentialDataBlock.

(** The constructor's two arguments: the address of the first
    register and the register values. *)
Record t : Type := {
  address : Z;
  values : list Z
}.

Definition length (self : t) : nat := List.length (values self).

(** The protocol's maxima: registers in one read, in one write. *)
Definition MAX_READ : nat := 125.
Definition MAX_WRITE : nat := 123.

(** Modelled from the spec: the bound check of section 4.1, which is
    pymodbus code and not part of this repository; [count] registers from
    [start] lie inside the bank, neither below its first address nor
    beyond its length. *)
Definition in_bounds (self : t) (start : Z) (count : nat) : bool :=
  ((address self <=? start)
   && (start + Z.of_nat count <=? address self + Z.of_nat (length self)))%Z.

Definition offset (self : t) (start : Z) : nat :=
  Z.to_nat (start - address self).

(** Modelled from the spec: [ModbusSequentialDataBlock.getValues] is
    pymodbus code, which is not part of this repository.  Section 4.1:
    a read fails with ILLEGAL_DATA_ADDRESS when the start address is
    below the bank, when start + count is beyond it, when count is 0 or
    when count exceeds the protocol's maximum of 125; otherwise it
    returns exactly [count] values in address order.  The bank is
    addressed from its [address], which is 0 for every bank the server
    builds; the maximum, which the spec gives for holding and input
    reads, is taken for a read of any bank. *)
Definition getValues (self : t) (start : Z) (count : nat)
  : Result (list Z) :=
  if negb (in_bounds self start count)
     || (count =? 0)%nat
     || (MAX_READ <? count)%nat
  then Exception ILLEGAL_DATA_ADDRESS
  else Ok (firstn count (skipn (offset self start) (values self))).

Definition as_list (new : Values) : list Z :=
  match new with
  | PyList l => l
  | PyInt v => [v]
  end.

(** Modelled from the spec: [ModbusSequentialDataBlock.setValues] is
    pymodbus code, which is not part of this repository.  Section 4.1:
    a write fails with ILLEGAL_DATA_ADDRESS under the bound check of a
    read, taken for the number of values, and with ILLEGAL_DATA_VALUE
    when that number exceeds the protocol's maximum of 123; a failed
    write applies nothing, a successful one applies every value.  The
    two checks are made in the order in which the spec states them. *)
Definition setValues (self : t) (start : Z) (new : Values)
  : t * Result unit :=
  let l := as_list new in
  if negb (in_bounds self start (List.length l))
  then (self, Exception ILLEGAL_DATA_ADDRESS)
  else if (MAX_WRITE <? List.length l)%nat
  then (self, Exception ILLEGAL_DATA_VALUE)
  else
    let i := offset self start in
    ({| address := address self;
        values := (firstn i (values self) ++ l
                   ++ skipn (i + List.length l) (values self))%list |},
     Ok tt).

End ModbusSequentialDataBlock.

(** *** Data blocks of either class *)

(** The class an object was built from decides which [getValues] and
    [setValues] run on it. *)
Inductive BlockClass : Type :=
| Plain
| Logging.

Record DataBlock : Type := {
  class : BlockClass;
  base : ModbusSequentialDataBlock.t
}.

(** [ModbusSequentialDataBlock(address, values)] *)
Definition new_ModbusSequentialDataBlock (address : Z) (values : list Z)
  : DataBlock :=
  {| class := Plain;
     base := {| ModbusSequentialDataBlock.address := address;
                ModbusSequentialDataBlock.values := values |} |}.

(** [LoggingDataBlock(address, values)]: the constructor is inherited. *)
Definition new_LoggingDataBlock (address : Z) (values : list Z)
  : DataBlock :=
  {| class := Logging;
     base := {| ModbusSequentialDataBlock.address := address;
                ModbusSequentialDataBlock.values := values |} |}.

Definition Method (A : Type) : Type :=
  DataBlock * list LogRecord -> (DataBlock * list LogRecord) * Outcome A.

Definition plain_getValues (self : ModbusSequentialDataBlock.t)
           (address : Z) (count : nat)
  : ModbusSequentialDataBlock.t * Outcome (Result (list Z)) :=
  (self, Return (ModbusSequentialDataBlock.getValues self address count)).

Definition plain_setValues (self : ModbusSequentialDataBlock.t)
           (address : Z) (values : Values)
  : ModbusSequentialDataBlock.t * Outcome (Result unit) :=
  let '(self', r) := ModbusSequentialDataBlock.setValues self address values in
  (self', Return r).

Definition getValues (address : Z) (count : nat) : Method (Result (list Z)) :=
  fun '(self, log) =>
    match class self with
    | Plain =>
        let '(b, o) := plain_getValues (base self) address count in
        (({| class := Plain; base := b |}, log), o)
    | Logging =>
        let '((b, log'), o) :=
          LoggingDataBlock.getValues str_read plain_getValues
                                     address count (base self, log) in
        (({| class := Logging; base := b |}, log'), o)
    end.

Definition setValues (address : Z) (values : Values) : Method (Result unit) :=
  fun '(self, log) =>
    match class self with
    | Plain =>
        let '(b, o) := plain_setValues (base self) address values in
        (({| class := Plain; base := b |}, log), o)
    | Logging =>
        let '((b, log'), o) :=
          LoggingDataBlock.setValues plain_setValues
                                     address values (base self, log) in
        (({| class := Logging; base := b |}, log'), o)
    end.

(** *** The slave's store, as [run_server] builds it *)

Inductive BankKind : Type :=
| DiscreteInputs
| Coils
| HoldingRegisters
| InputRegisters.

Record ModbusSlaveContext : Type := {
  di : DataBlock;
  co : DataBlock;
  hr : DataBlock;
  ir : DataBlock
}.

(** [range(n)] *)
Definition range (n : nat) : list Z := map Z.of_nat (seq 0 n).

Definition store : ModbusSlaveContext :=
  {| di := new_ModbusSequentialDataBlock 0 (repeat 0 REGISTER_COUNT);
     co := new_ModbusSequentialDataBlock 0 (repeat 0 REGISTER_COUNT);
     hr := new_LoggingDataBlock 0
             (map (fun i => INITIAL_VALUE + i) (range REGISTER_COUNT));
     ir := new_ModbusSequentialDataBlock 0 (repeat 0 REGISTER_COUNT) |}.

Definition bank (kind : BankKind) (ctx : ModbusSlaveContext) : DataBlock :=
  match kind with
  | DiscreteInputs => di ctx
  | Coils => co ctx
  | HoldingRegisters => hr ctx
  | InputRegisters => ir ctx
  end.

Definition set_bank (kind : BankKind) (b : DataBlock)
           (ctx : ModbusSlaveContext) : ModbusSlaveContext :=
  match kind with
  | DiscreteInputs => {| di := b; co := co ctx; hr := hr ctx; ir := ir ctx |}
  | Coils => {| di := di ctx; co := b; hr := hr ctx; ir := ir ctx |}
  | HoldingRegisters => {| di := di ctx; co := co ctx; hr := b; ir := ir ctx |}
  | InputRegisters => {| di := di ctx; co := co ctx; hr := hr ctx; ir := b |}
  end.

(** The server: its store and what its logger has been handed. *)
Record Server : Type := {
  context : ModbusSlaveContext;
  log : list LogRecord
}.

(** The server once [run_server] has built its store, with nothing
    logged yet. *)
Definition started : Server := {| context := store; log := [] |}.

(** Modelled from the spec: the dispatch of a read or a write to one of
    the four banks is done by pymodbus's ModbusSlaveContext, which is not
    part of this repository.  Section 4.1: [read(bankKind, startAddress,
    count)] and [write(bankKind, startAddress, values)] act on the bank
    of that kind and on no other. *)
Definition read (kind : BankKind) (address : Z) (count : nat) (srv : Server)
  : Server * Outcome (Result (list Z)) :=
  let '((b, log'), o) := getValues address count (bank kind (context srv), log srv) in
  ({| context := set_bank kind b (context srv); log := log' |}, o).

(** Modelled from the spec: as for [read], the dispatch of a write is
    pymodbus's and not part of this repository; section 4.1. *)
Definition write (kind : BankKind) (address : Z) (values : Values) (srv : Server)
  : Server * Outcome (Result unit) :=
  let '((b, log'), o) := setValues address values (bank kind (context srv), log srv) in
  ({| context := set_bank kind b (context srv); log := log' |}, o).

(** A request served by the store. *)
Inductive Operation : Type :=
| Read (kind : BankKind) (address : Z) (count : nat)
| Write (kind : BankKind) (address : Z) (values : Values).

Definition serve (op : Operation) (srv : Server) : Server :=
  match op with
  | Read kind address count => fst (read kind address count srv)
  | Write kind address values => fst (write kind address values srv)
  end.

(** The server after a sequence of requests, from its start. *)
Definition after (ops : list Operation) : Server :=
  fold_left (fun srv op => serve op srv) ops started.

(** *** Vocabulary of the properties *)

(** A legal address of a bank: one of its registers. *)
Definition legal_address (b : DataBlock) (addr : Z) : Prop :=
  (ModbusSequentialDataBlock.address (base b) <= addr
   < ModbusSequentialDataBlock.address (base b)
     + Z.of_nat (ModbusSequentialDataBlock.length (base b)))%Z.

Definition uint16 (v : Z) : Prop := (0 <= v < 65536)%Z.

(** The number of registers a write covers. *)
Definition quantity (values : Values) : nat :=
  List.length (ModbusSequentialDataBlock.as_list values).

(** The class of each bank of the store [run_server] builds. *)
Definition classes_of_store (ctx : ModbusSlaveContext) : Prop :=
  class (di ctx) = Plain /\ class (co ctx) = Plain
  /\ class (hr ctx) = Logging /\ class (ir ctx) = Plain.

(** The logger was handed exactly one more record. *)
Definition reported (before after : Server) : Prop :=
  exists r : LogRecord, log after = (log before ++ [r])%list.

End EchoServer.

(** ** modbus_client_tester.py *)

Module ClientTester.

Definition PICO_IP : string := "192.168.0.124".
Definition PICO_PORT : Z := 5020.
Definition SLAVE_ID : Z := 1.

Definition SERVER_REGISTER_START : Z := 100.
Definition SERVER_REGISTER_COUNT : Z := 10.

(** *** The client and the clock, seen from the script

    [ModbusTcpClient] and [time.sleep] belong to the outside world.  A
    response object answers [isError()] and, when that is false, carries
    [registers]; when it is true, [text] is what [str(result)] prints. *)
Inductive Response : Type :=
| RegistersResponse (registers : list Z)
| ErrorResponse (text : string).

Definition isError (result : Response) : bool :=
  match result with
  | RegistersResponse _ => false
  | ErrorResponse _ => true
  end.

(** [str(result)]; the script prints it for an error response only. *)
Definition str_response (result : Response) : string :=
  match result with
  | RegistersResponse registers => str_list registers
  | ErrorResponse text => text
  end.

Inductive Request : Type :=
| read_holding_registers (address count slave : Z)
| write_register (address value slave : Z)
| write_registers (address : Z) (values : list Z) (slave : Z).

(** One interaction with the outside world and how it ended.  [Sleep]
    carries the delay in milliseconds. *)
Inductive Event : Type :=
| Connect (o : Outcome bool)
| Exchange (rq : Request) (o : Outcome Response)
| Close (o : Outcome unit)
| Sleep (ms : Z) (o : Outcome unit).

(** The outside world answers each call from the history of the calls
    made so far.  A [KeyboardInterrupt] is modelled where the script waits
    on the outside world, as the outcome of one of these calls; one that
    arrives between two calls is not. *)
Record Environment : Type := {
  pymodbus_version : string;
  on_connect : list Event -> Outcome bool;
  on_request : list Event -> Request -> Outcome Response;
  on_close : list Event -> Outcome unit;
  on_sleep : list Event -> Z -> Outcome unit
}.

(** *** class TestResult *)

Record TestResult : Type := {
  passed : nat;
  failed : nat;
  errors : list string
}.

(** [TestResult.__init__] *)
Definition TestResult_init : TestResult :=
  {| passed := 0; failed := 0; errors := [] |}.

(** The state of the script: the one [TestResult] object that every case
    shares, the records logged, and the history of the calls. *)
Record State : Type := {
  test_result : TestResult;
  log : list LogRecord;
  history : list Event
}.

Definition initial_state : State :=
  {| test_result := TestResult_init; log := []; history := [] |}.

(** *** Statements as state transformers *)

Definition M (A : Type) : Type := State -> State * Outcome A.

Definition ret {A} (a : A) : M A := fun st => (st, Return a).

Definition bind {A B} (m : M A) (f : A -> M B) : M B :=
  fun st =>
    match m st with
    | (st', Return a) => f a st'
    | (st', Raise e) => (st', Raise e)
    | (st', KeyboardInterrupt) => (st', KeyboardInterrupt)
    end.

Notation "x <- m ;; k" := (bind m (fun x => k))
  (at level 61, m at next level, right associativity).
Notation "m ;; k" := (bind m (fun _ => k))
  (at level 61, right associativity).

(** [try: body  except Exception as e: handler(e)] *)
Definition try_except {A} (body : M A) (handler : string -> M A) : M A :=
  fun st =>
    match body st with
    | (st', Raise e) => handler e st'
    | r => r
    end.

(** [try: body  except KeyboardInterrupt: handler] *)
Definition try_except_interrupt {A} (body : M A) (handler : M A) : M A :=
  fun st =>
    match body st with
    | (st', KeyboardInterrupt) => handler st'
    | r => r
    end.

(** [try: body  finally: final]: [final] always runs, and what it raises
    replaces the outcome of [body]. *)
Definition try_finally {A} (body : M A) (final : M unit) : M A :=
  fun st =>
    match body st with
    | (st', o) =>
        match final st' with
        | (st'', Return _) => (st'', o)
        | (st'', Raise e) => (st'', Raise e)
        | (st'', KeyboardInterrupt) => (st'', KeyboardInterrupt)
        end
    end.

Definition lift {A} (o : Outcome A) : M A := fun st => (st, o).

Definition log_info (msg : string) : M unit :=
  fun st =>
    ({| test_result := test_result st;
        log := (log st ++ [(INFO, msg)])%list;
        history := history st |}, Return tt).

Definition log_error (msg : string) : M unit :=
  fun st =>
    ({| test_result := test_result st;
        log := (log st ++ [(ERROR, msg)])%list;
        history := history st |}, Return tt).

Definition update_result (f : TestResult -> TestResult) : M unit :=
  fun st =>
    ({| test_result := f (test_result st);
        log := log st;
        history := history st |}, Return tt).

Definition get_result : M TestResult := fun st => (st, Return (test_result st)).

Definition record (ev : Event) : M unit :=
  fun st =>
    ({| test_result := test_result st;
        log := log st;
        history := (history st ++ [ev])%list |}, Return tt).

(** [for x in l: body(x)] *)
Fixpoint for_each {A} (l : list A) (body : A -> M unit) : M unit :=
  match l with
  | [] => ret tt
  | x :: l' => body x ;; for_each l' body
  end.

(** [l[0]] *)
Definition index0 (l : list Z) : M Z :=
  match l with
  | v :: _ => ret v
  | [] => lift (Raise "list index out of range")
  end.

(** *** TestResult's methods *)

Definition success (test_name : string) : M unit :=
  update_result (fun self =>
    {| passed := passed self + 1; failed := failed self; errors := errors self |}) ;;
  log_info ("✅ " ++ test_name).

Definition failure (test_name reason : string) : M unit :=
  update_result (fun self =>
    {| passed := passed self; failed := failed self + 1; errors := errors self |}) ;;
  update_result (fun self =>
    {| passed := passed self; failed := failed self;
       errors := (errors self ++ [(test_name ++ ": " ++ reason)%string])%list |}) ;;
  log_error ("❌ " ++ test_name ++ " - " ++ reason).

Definition summary : M bool :=
  self <- get_result ;;
  let total := (passed self + failed self)%nat in
  log_info (str_repeat "=" 60) ;;
  log_info "TEST SUMMARY" ;;
  log_info (str_repeat "=" 60) ;;
  log_info ("Total tests: " ++ str_nat total) ;;
  log_info ("Passed: " ++ str_nat (passed self)) ;;
  log_info ("Failed: " ++ str_nat (failed self)) ;;
  (if (0 <? failed self)%nat then
     log_info (newline ++ "Failures:") ;;
     for_each (errors self) (fun error => log_info ("  - " ++ error))
   else ret tt) ;;
  log_info (str_repeat "=" 60) ;;
  ret (failed self =? 0)%nat.

(** [result.registers]: only a response that is not an error has them. *)
Definition registers (result : Response) : M (list Z) :=
  match result with
  | RegistersResponse l => ret l
  | ErrorResponse _ => lift (Raise "object has no attribute 'registers'")
  end.

Section Script.

Variable env : Environment.

(** *** Calls to the outside world, each entered in the history *)

Definition client_connect : M bool :=
  fun st =>
    let o := on_connect env (history st) in
    (record (Connect o) ;; lift o) st.

Definition client_request (rq : Request) : M Response :=
  fun st =>
    let o := on_request env (history st) rq in
    (record (Exchange rq o) ;; lift o) st.

Definition client_close : M unit :=
  fun st =>
    let o := on_close env (history st) in
    (record (Close o) ;; lift o) st.

Definition time_sleep (ms : Z) : M unit :=
  fun st =>
    let o := on_sleep env (history st) ms in
    (record (Sleep ms o) ;; lift o) st.

(** *** The test cases *)

Definition test_connection : M bool :=
  try_except
    (result <- client_connect ;;
     if result then ret true else ret false)
    (fun e => log_error ("Connection error: " ++ e) ;; ret false).

Definition test_single_register_read : M (option Z) :=
  try_except
    (result <- client_request
                 (read_holding_registers SERVER_REGISTER_START 1 SLAVE_ID) ;;
     if isError result then
       failure "Single Register Read" ("Modbus error: " ++ str_response result) ;;
       ret None
     else
       regs <- registers result ;;
       value <- index0 regs ;;
       success ("Single Register Read - Addr " ++ str_int SERVER_REGISTER_START
                ++ ": " ++ str_int value) ;;
       ret (Some value))
    (fun e =>
       failure "Single Register Read" ("Exception: " ++ e) ;;
       ret None).

Definition test_single_register_write (address value : Z) : M bool :=
  try_except
    (result <- client_request (write_register address value SLAVE_ID) ;;
     if isError result then
       failure "Single Register Write" ("Modbus error: " ++ str_response result) ;;
       ret false
     else
       success ("Single Register Write - Addr " ++ str_int address
                ++ ": " ++ str_int value) ;;
       ret true)
    (fun e =>
       failure "Single Register Write" ("Exception: " ++ e) ;;
       ret false).

Definition test_multiple_register_read (start_addr count : Z)
  : M (option (list Z)) :=
  try_except
    (result <- client_request
                 (read_holding_registers start_addr count SLAVE_ID) ;;
     if isError result then
       failure "Multiple Register Read" ("Modbus error: " ++ str_response result) ;;
       ret None
     else
       values <- registers result ;;
       success ("Multiple Register Read - Addr " ++ str_int start_addr ++ "-"
                ++ str_int (start_addr + count - 1) ++ ": " ++ str_list values) ;;
       ret (Some values))
    (fun e =>
       failure "Multiple Register Read" ("Exception: " ++ e) ;;
       ret None).

Definition test_multiple_register_write (start_addr : Z) (values : list Z)
  : M bool :=
  try_except
    (result <- client_request (write_registers start_addr values SLAVE_ID) ;;
     if isError result then
       failure "Multiple Register Write" ("Modbus error: " ++ str_response result) ;;
       ret false
     else
       success ("Multiple Register Write - Addr " ++ str_int start_addr
                ++ ": " ++ str_list values) ;;
       ret true)
    (fun e =>
       failure "Multiple Register Write" ("Exception: " ++ e) ;;
       ret false).

Definition test_write_read_verify : M unit :=
  let test_addr := SERVER_REGISTER_START + 2 in
  let test_value := 9999 in
  written <- test_single_register_write test_addr test_value ;;
  if negb written then ret tt
  else
    time_sleep 100 ;;
    try_except
      (result <- client_request
                   (read_holding_registers test_addr 1 SLAVE_ID) ;;
       if isError result then
         failure "Write-Read-Verify" ("Read error: " ++ str_response result)
       else
         regs <- registers result ;;
         read_value <- index0 regs ;;
         if (read_value =? test_value)%Z then
           success ("Write-Read-Verify - Value " ++ str_int test_value
                    ++ " verified")
         else
           failure "Write-Read-Verify"
                   ("Value mismatch: wrote " ++ str_int test_value
                    ++ ", read " ++ str_int read_value))
      (fun e => failure "Write-Read-Verify" ("Exception: " ++ e)).

Definition test_boundary_addresses : M unit :=
  try_except
    (result <- client_request
                 (read_holding_registers SERVER_REGISTER_START 1 SLAVE_ID) ;;
     if isError result then
       failure "Boundary Test - First Register" ("Error: " ++ str_response result)
     else
       regs <- registers result ;;
       value <- index0 regs ;;
       success ("Boundary Test - First Register ("
                ++ str_int SERVER_REGISTER_START ++ "): " ++ str_int value))
    (fun e => failure "Boundary Test - First Register" ("Exception: " ++ e)) ;;
  let last_addr := SERVER_REGISTER_START + SERVER_REGISTER_COUNT - 1 in
  try_except
    (result <- client_request
                 (read_holding_registers last_addr 1 SLAVE_ID) ;;
     if isError result then
       failure "Boundary Test - Last Register" ("Error: " ++ str_response result)
     else
       regs <- registers result ;;
       value <- index0 regs ;;
       success ("Boundary Test - Last Register ("
                ++ str_int last_addr ++ "): " ++ str_int value))
    (fun e => failure "Boundary Test - Last Register" ("Exception: " ++ e)).

Definition test_invalid_address : M unit :=
  let invalid_addr := 999 in
  try_except
    (result <- client_request
                 (read_holding_registers invalid_addr 1 SLAVE_ID) ;;
     if isError result then
       success ("Invalid Address Test - Correctly rejected address "
                ++ str_int invalid_addr)
     else
       regs <- registers result ;;
       failure "Invalid Address Test"
               ("Should have failed but got: " ++ str_list regs))
    (fun e => success ("Invalid Address Test - Exception as expected: " ++ e)).

(** *** run_tests and main *)

(** The body of the [try] statement of [run_tests]. *)
Definition test_suite : M unit :=
  log_info "Running test suite..." ;;
  log_info "" ;;
  original_value <- test_single_register_read ;;
  test_multiple_register_read SERVER_REGISTER_START 5 ;;
  match original_value with
  | Some v => test_single_register_write SERVER_REGISTER_START (v + 100) ;; ret tt
  | None => ret tt
  end ;;
  test_multiple_register_write (SERVER_REGISTER_START + 3) [2000; 2001; 2002] ;;
  test_write_read_verify ;;
  test_boundary_addresses ;;
  test_invalid_address ;;
  time_sleep 1000.

(** The [try] statement of [run_tests], with its [except
    KeyboardInterrupt] and its [finally], and the [return] after it. *)
Definition guarded_suite : M bool :=
  returned <- try_finally
                (try_except_interrupt
                   (test_suite ;; ret None)
                   (log_info (newline ++ "Test interrupted by user") ;;
                    ret (Some false)))
                client_close ;;
  match returned with
  | Some b => ret b
  | None => summary
  end.

Definition run_tests : M bool :=
  log_info (str_repeat "=" 60) ;;
  log_info "Modbus TCP Client Tester" ;;
  log_info ("pymodbus version: " ++ pymodbus_version env) ;;
  log_info (str_repeat "=" 60) ;;
  log_info ("Target: " ++ PICO_IP ++ ":" ++ str_int PICO_PORT) ;;
  log_info ("Slave ID: " ++ str_int SLAVE_ID) ;;
  log_info ("Expected server registers: " ++ str_int SERVER_REGISTER_START ++ "-"
            ++ str_int (SERVER_REGISTER_START + SERVER_REGISTER_COUNT - 1)) ;;
  log_info "" ;;
  update_result (fun _ => TestResult_init) ;;
  log_info "Testing connection..." ;;
  connected <- test_connection ;;
  if negb connected then
    log_error "❌ Cannot connect to server. Ensure Pico server is running!" ;;
    ret false
  else
    log_info "✅ Connected to Pico server" ;;
    log_info "" ;;
    guarded_suite.

(** How the process ends: [sys.exit(code)], or a [KeyboardInterrupt]
    that nothing caught (the interpreter then ends with a status that
    is not 0). *)
Inductive ProcessEnd : Type :=
| SysExit (code : Z)
| Interrupted.

Definition main : State * ProcessEnd :=
  match run_tests initial_state with
  | (st, Return ok) => (st, SysExit (if ok then 0 else 1))
  | (st, Raise e) =>
      (fst (log_error ("Test runner error: " ++ e) st), SysExit 1)
  | (st, KeyboardInterrupt) => (st, Interrupted)
  end.

End Script.

(** *** Vocabulary of the properties *)

(** A call to the recorder. *)
Inductive RecorderCall : Type :=
| call_success (test_name : string)
| call_failure (test_name reason : string).

Definition recorder_call (c : RecorderCall) : M unit :=
  match c with
  | call_success test_name => success test_name
  | call_failure test_name reason => failure test_name reason
  end.

Definition is_success (c : RecorderCall) : bool :=
  match c with
  | call_success _ => true
  | call_failure _ _ => false
  end.

(** The entry of [errors] that a call to [failure] leaves. *)
Definition entries (calls : list RecorderCall) : list string :=
  flat_map (fun c => match c with
                     | call_success _ => []
                     | call_failure test_name reason =>
                         [test_name ++ ": " ++ reason]
                     end) calls.

(** One pass, or one failure with its entry, was recorded between two
    states. *)
Definition pass_recorded (before after : State) : Prop :=
  passed (test_result after) = (passed (test_result before) + 1)%nat
  /\ failed (test_result after) = failed (test_result before)
  /\ errors (test_result after) = errors (test_result before).

Definition failure_recorded (entry : string) (before after : State) : Prop :=
  passed (test_result after) = passed (test_result before)
  /\ failed (test_result after) = (failed (test_result before) + 1)%nat
  /\ errors (test_result after) = (errors (test_result before) ++ [entry])%list.

(** The number of outcomes recorded so far. *)
Definition recorded (st : State) : nat :=
  (passed (test_result st) + failed (test_result st))%nat.

(** The requests sent to the server, in order. *)
Definition requests (h : list Event) : list Request :=
  flat_map (fun ev => match ev with
                      | Exchange rq _ => [rq]
                      | _ => []
                      end) h.

(** An event that lets the run go on: no [KeyboardInterrupt], and nothing
    raised by [time.sleep] or [close], which no [try] of a case guards. *)
Definition quiet (ev : Event) : bool :=
  match ev with
  | Connect KeyboardInterrupt => false
  | Connect _ => true
  | Exchange _ KeyboardInterrupt => false
  | Exchange _ _ => true
  | Close (Return _) => true
  | Close _ => false
  | Sleep _ (Return _) => true
  | Sleep _ _ => false
  end.

Definition exchanges (h : list Event) : nat := List.length (requests h).

(** The state once a call to the outside world is entered in the history. *)
Definition entered (ev : Event) (st : State) : State :=
  {| test_result := test_result st;
     log := log st;
     history := (history st ++ [ev])%list |}.

(** The value that the single-read case hands on, from the outcome of its
    request. *)
Definition value_read (o : Outcome Response) : option Z :=
  match o with
  | Return (RegistersResponse (v :: _)) => Some v
  | _ => None
  end.

(** The request of the single-write case, when the case is run. *)
Definition single_write (original_value : option Z) : list Request :=
  match original_value with
  | Some v => [write_register SERVER_REGISTER_START (v + 100) SLAVE_ID]
  | None => []
  end.

(** The calls of a run of the whole suite that nothing cut short, and the
    number [n] of outcomes it records: every case sends its requests,
    except that the single-write case runs only on a value handed on by
    the single-read case, and that the write-read-verify case reads back
    only after a write recorded as a success. *)
Definition suite_shape (evs : list Event) (n : nat) : Prop :=
  exists (o1 : Outcome Response) (rest : list Event) (read_back : list Request),
    evs = Exchange (read_holding_registers 100 1 1) o1 :: rest
    /\ requests evs
       = ([read_holding_registers 100 1 1; read_holding_registers 100 5 1]
          ++ single_write (value_read o1)
          ++ [write_registers 103 [2000; 2001; 2002] 1;
              write_register 102 9999 1]
          ++ read_back
          ++ [read_holding_registers 100 1 1; read_holding_registers 109 1 1;
              read_holding_registers 999 1 1])%list
    /\ (read_back = [] \/ read_back = [read_holding_registers 102 1 1])
    /\ n = (7 + List.length (single_write (value_read o1))
            + List.length read_back)%nat.

(** A statement is orderly when, from any state, it enters its calls in
    the history and then: if every one of them was quiet, it returns,
    having recorded [n] outcomes, and [P] holds of the calls, of [n] and of
    the value returned; otherwise it does not return. *)
Definition orderly {A} (m : M A) (P : list Event -> nat -> A -> Prop) : Prop :=
  forall st : State,
  exists evs : list Event,
    history (fst (m st)) = (history st ++ evs)%list
    /\ if forallb quiet evs
       then exists (a : A) (n : nat),
              snd (m st) = Return a
              /\ recorded (fst (m st)) = (recorded st + n)%nat
              /\ P evs n a
       else forall a : A, snd (m st) <> Return a.

(** A world that connects as told, answers the n-th request with the n-th
    entry of a script and lets [sleep] and [close] return. *)
Definition scripted (connected : Outcome bool)
           (answers : list (Outcome Response)) : Environment :=
  {| pymodbus_version := "3.6.9";
     on_connect := fun _ => connected;
     on_request := fun h _ => nth (exchanges h) answers
                                  (Raise "Connection closed");
     on_close := fun _ => Return tt;
     on_sleep := fun _ _ => Return tt |}.

(** A response that is not an error, returned by the call. *)
Definition accepted (o : Outcome Response) : bool :=
  match o with
  | Return (RegistersResponse _) => true
  | _ => false
  end.

(** A call that a case makes: a request or a sleep, neither [connect] nor
    [close]. *)
Definition within_suite (ev : Event) : bool :=
  match ev with
  | Exchange _ _ => true
  | Sleep _ _ => true
  | Connect _ => false
  | Close _ => false
  end.

(** A statement that, from any state, only adds requests and sleeps to
    the history. *)
Definition keeps_to_suite {A} (m : M A) : Prop :=
  forall st : State,
  exists evs : list Event,
    history (fst (m st)) = (history st ++ evs)%list
    /\ forallb within_suite evs = true.

(** A call that a [KeyboardInterrupt] cut short. *)
Definition interrupted (ev : Event) : bool :=
  match ev with
  | Connect KeyboardInterrupt => true
  | Exchange _ KeyboardInterrupt => true
  | Close KeyboardInterrupt => true
  | Sleep _ KeyboardInterrupt => true
  | _ => false
  end.

(** The world [env], except that every [sleep] ends as told. *)
Definition sleeping (o : Outcome unit) (env : Environment) : Environment :=
  {| pymodbus_version := pymodbus_version env;
     on_connect := on_connect env;
     on_request := on_request env;
     on_close := on_close env;
     on_sleep := fun _ _ => o |}.

(** The world [env], except that [close] ends as told. *)
Definition closing (c : Outcome unit) (env : Environment) : Environment :=
  {| pymodbus_version := pymodbus_version env;
     on_connect := on_connect env;
     on_request := on_request env;
     on_close := fun _ => c;
     on_sleep := on_sleep env |}.

End ClientTester.

(** * Properties *)

(** ** The register store *)

Section Store_facts.

Import EchoServer.
Import EchoServer.ModbusSequentialDataBlock.

Lemma in_bounds_iff (self : t) (start : Z) (count : nat) :
  in_bounds self start count = true <->
  address self <= start
  /\ start + Z.of_nat count <= address self + Z.of_nat (length self).
Proof.
  unfold in_bounds. rewrite andb_true_iff, !Z.leb_le. tauto.
Qed.

Lemma in_bounds_false (self : t) (start : Z) (count : nat) :
  start < address self
  \/ start + Z.of_nat count > address self + Z.of_nat (length self) ->
  in_bounds self start count = false.
Proof.
  intros H. destruct (in_bounds self start count) eqn:E; [|reflexivity].
  apply in_bounds_iff in E. lia.
Qed.

(** Reading back the slice that a splice has just put in place. *)
Lemma slice_of_splice (l new : list Z) (i : nat) :
  (i <= List.length l)%nat ->
  firstn (List.length new)
         (skipn i (firstn i l ++ new ++ skipn (i + List.length new) l))
  = new.
Proof.
  intros Hi.
  rewrite skipn_app, firstn_length_le by exact Hi.
  rewrite Nat.sub_diag. simpl skipn at 2.
  rewrite skipn_all2 by (rewrite firstn_length_le; auto).
  simpl. rewrite firstn_app, Nat.sub_diag, firstn_all. simpl.
  apply app_nil_r.
Qed.

Lemma splice_length (l new : list Z) (i : nat) :
  (i + List.length new <= List.length l)%nat ->
  List.length (firstn i l ++ new ++ skipn (i + List.length new) l)
  = List.length l.
Proof.
  intros H. rewrite !length_app, firstn_length_le, length_skipn; lia.
Qed.

(** A block of either class stores and returns what the plain block
    does; the class only decides what is logged. *)
Lemma getValues_result (b : DataBlock) (log : list LogRecord)
      (a : Z) (count : nat) :
  snd (EchoServer.getValues a count (b, log))
  = Return (ModbusSequentialDataBlock.getValues (base b) a count).
Proof.
  unfold EchoServer.getValues. destruct (class b); reflexivity.
Qed.

Lemma getValues_block (b : DataBlock) (log : list LogRecord)
      (a : Z) (count : nat) :
  fst (fst (EchoServer.getValues a count (b, log))) = b.
Proof.
  unfold EchoServer.getValues. destruct b as [[] bb]; reflexivity.
Qed.

Lemma setValues_result (b : DataBlock) (log : list LogRecord)
      (a : Z) (vals : Values) :
  snd (EchoServer.setValues a vals (b, log))
  = Return (snd (ModbusSequentialDataBlock.setValues (base b) a vals)).
Proof.
  unfold EchoServer.setValues, LoggingDataBlock.setValues, plain_setValues.
  destruct (class b), vals; simpl;
    destruct (ModbusSequentialDataBlock.setValues (base b) a _); reflexivity.
Qed.

Lemma setValues_block (b : DataBlock) (log : list LogRecord)
      (a : Z) (vals : Values) :
  fst (fst (EchoServer.setValues a vals (b, log)))
  = {| class := class b;
       base := fst (ModbusSequentialDataBlock.setValues (base b) a vals) |}.
Proof.
  unfold EchoServer.setValues, LoggingDataBlock.setValues, plain_setValues.
  destruct (class b), vals; simpl;
    destruct (ModbusSequentialDataBlock.setValues (base b) a _); reflexivity.
Qed.

End Store_facts.

Section Store_properties.

Import EchoServer.
Import EchoServer.ModbusSequentialDataBlock.

(** C1.  Write-read round trip: on a bank of either class, for every
    legal address [addr] and every uint16 value [v], the write of [[v]]
    at [addr] with [setValues] is acknowledged and the read of one
    register at [addr] with [getValues] that follows returns exactly
    [[v]]. *)
Theorem write_read_round_trip
        (b : DataBlock) (log : list LogRecord) (addr v : Z) :
  legal_address b addr ->
  uint16 v ->
  let written := EchoServer.setValues addr (PyList [v]) (b, log) in
  snd written = Return (Ok tt)
  /\ snd (EchoServer.getValues addr 1 (fst written)) = Return (Ok [v]).
Proof.
  intros [Hlo Hhi] _ written. subst written.
  assert (Hin : in_bounds (base b) addr 1 = true)
    by (apply in_bounds_iff; simpl; lia).
  assert (Hoff : (offset (base b) addr < List.length (values (base b)))%nat)
    by (unfold offset, length in *; lia).
  destruct (EchoServer.setValues addr (PyList [v]) (b, log))
    as [[b' log'] o] eqn:E.
  pose proof (setValues_result b log addr (PyList [v])) as Hres.
  pose proof (setValues_block b log addr (PyList [v])) as Hblk.
  rewrite E in Hres, Hblk. simpl in Hres, Hblk.
  unfold ModbusSequentialDataBlock.setValues in Hres, Hblk.
  simpl as_list in *. simpl List.length in *.
  rewrite Hin in Hres, Hblk. simpl in Hres, Hblk.
  split; [exact Hres|].
  simpl fst. rewrite getValues_result. f_equal.
  subst b'. simpl base.
  unfold ModbusSequentialDataBlock.getValues.
  replace (in_bounds _ addr 1) with true.
  - simpl. f_equal. unfold offset at 1. simpl address.
    fold (offset (base b) addr).
    apply (slice_of_splice (values (base b)) [v]). lia.
  - symmetry. apply in_bounds_iff. unfold length. simpl values. simpl address.
    rewrite (splice_length (values (base b)) [v]) by (simpl; lia).
    unfold length in Hhi. simpl. lia.
Qed.

(** C2.  Out-of-bounds rejection with no state change: on a bank
    addressed from 0, a read of [count] registers at [a] and a write of
    [count] values at [a] with [a + count > len(B)] or [a < 0] both fail
    with ILLEGAL_DATA_ADDRESS and leave the bank as it was; and a read of
    0 registers fails with ILLEGAL_DATA_ADDRESS at any address. *)
Theorem out_of_bounds_rejected
        (b : DataBlock) (log : list LogRecord)
        (a a0 : Z) (count : nat) (vals : Values) :
  address (base b) = 0 ->
  a + Z.of_nat count > Z.of_nat (length (base b)) \/ a < 0 ->
  quantity vals = count ->
  (snd (EchoServer.getValues a count (b, log))
     = Return (Exception ILLEGAL_DATA_ADDRESS)
   /\ fst (fst (EchoServer.getValues a count (b, log))) = b)
  /\ (snd (EchoServer.setValues a vals (b, log))
        = Return (Exception ILLEGAL_DATA_ADDRESS)
      /\ fst (fst (EchoServer.setValues a vals (b, log))) = b)
  /\ (snd (EchoServer.getValues a0 0 (b, log))
        = Return (Exception ILLEGAL_DATA_ADDRESS)
      /\ fst (fst (EchoServer.getValues a0 0 (b, log))) = b).
Proof.
  intros Hbase Hout Hq.
  assert (Hin : in_bounds (base b) a count = false)
    by (apply in_bounds_false; rewrite Hbase; lia).
  repeat split.
  - rewrite getValues_result.
    unfold ModbusSequentialDataBlock.getValues. now rewrite Hin.
  - apply getValues_block.
  - rewrite setValues_result.
    unfold ModbusSequentialDataBlock.setValues.
    unfold quantity in Hq. rewrite Hq, Hin. reflexivity.
  - rewrite setValues_block.
    unfold ModbusSequentialDataBlock.setValues.
    unfold quantity in Hq. rewrite Hq, Hin. destruct b; reflexivity.
  - rewrite getValues_result.
    unfold ModbusSequentialDataBlock.getValues.
    now rewrite orb_true_r.
  - apply getValues_block.
Qed.

Lemma out_of_bounds_rejected_witness :
  let b := hr store in
  (snd (EchoServer.getValues 999 1 (b, []))
     = Return (Exception ILLEGAL_DATA_ADDRESS)
   /\ fst (fst (EchoServer.getValues 999 1 (b, []))) = b)
  /\ (snd (EchoServer.setValues 999 (PyInt 7) (b, []))
        = Return (Exception ILLEGAL_DATA_ADDRESS)
      /\ fst (fst (EchoServer.setValues 999 (PyInt 7) (b, []))) = b)
  /\ (snd (EchoServer.getValues 100 0 (b, []))
        = Return (Exception ILLEGAL_DATA_ADDRESS)
      /\ fst (fst (EchoServer.getValues 100 0 (b, []))) = b).
Proof.
  apply (out_of_bounds_rejected (hr store) [] 999 100 1 (PyInt 7)).
  - reflexivity.
  - left. vm_compute. reflexivity.
  - reflexivity.
Defined.

Lemma write_read_round_trip_witness :
  snd (EchoServer.setValues 102 (PyList [9999]) (hr store, []))
    = Return (Ok tt)
  /\ snd (EchoServer.getValues 102 1
            (fst (EchoServer.setValues 102 (PyList [9999]) (hr store, []))))
     = Return (Ok [9999]).
Proof.
  apply (write_read_round_trip (hr store) [] 102 9999).
  - unfold legal_address. vm_compute. intuition discriminate.
  - unfold uint16. lia.
Defined.

(** *** The store as configured *)

(** A write of one value, as a list or as a single value, and the read of
    that register. *)
Lemma single_value_round_trip
      (b : DataBlock) (log : list LogRecord) (addr v : Z) (vals : Values) :
  legal_address b addr ->
  as_list vals = [v] ->
  let written := EchoServer.setValues addr vals (b, log) in
  snd written = Return (Ok tt)
  /\ snd (EchoServer.getValues addr 1 (fst written)) = Return (Ok [v]).
Proof.
  intros [Hlo Hhi] Hv written. subst written.
  assert (Hin : in_bounds (base b) addr 1 = true)
    by (apply in_bounds_iff; simpl; lia).
  destruct (EchoServer.setValues addr vals (b, log)) as [[b' log'] o] eqn:E.
  pose proof (setValues_result b log addr vals) as Hres.
  pose proof (setValues_block b log addr vals) as Hblk.
  rewrite E in Hres, Hblk. simpl in Hres, Hblk.
  unfold ModbusSequentialDataBlock.setValues in Hres, Hblk.
  rewrite Hv in Hres, Hblk. simpl List.length in *.
  rewrite Hin in Hres, Hblk. simpl in Hres, Hblk.
  split; [exact Hres|].
  simpl fst. rewrite getValues_result. f_equal.
  subst b'. simpl base.
  unfold ModbusSequentialDataBlock.getValues.
  replace (in_bounds _ addr 1) with true.
  - simpl. f_equal. unfold offset at 1. simpl address.
    fold (offset (base b) addr).
    apply (slice_of_splice (values (base b)) [v]).
    unfold offset, length in *. lia.
  - symmetry. apply in_bounds_iff. unfold length. simpl values. simpl address.
    rewrite (splice_length (values (base b)) [v])
      by (unfold offset, length in *; simpl; lia).
    unfold length in Hhi. simpl. lia.
Qed.

(** C7, the claim as stated fails: at startup the holding register at
    address 100 does not hold 1000. *)
Lemma scenario_A_counterexample :
  ~ (snd (EchoServer.getValues 100 1 (hr store, [])) = Return (Ok [1000])
     /\ snd (EchoServer.getValues 100 1
               (fst (EchoServer.setValues 100 (PyInt 1100) (hr store, []))))
        = Return (Ok [1100])).
Proof.
  intros [H _]. vm_compute in H. discriminate H.
Qed.

(** C7, amended.  On the holding bank as [run_server] builds it, 200
    registers addressed from 0 of which register [i] holds [1000 + i]:
    before any write, read(100, 1) returns [[1100]]; and after
    write(100, v), read(100, 1) returns [[v]], for 1100 as for every
    other uint16 value [v], whatever has been logged. *)
Theorem scenario_A_as_configured (log : list LogRecord) (v : Z) :
  uint16 v ->
  snd (EchoServer.getValues 100 1 (hr store, log)) = Return (Ok [1100])
  /\ (let written := EchoServer.setValues 100 (PyInt v) (hr store, log) in
      snd written = Return (Ok tt)
      /\ snd (EchoServer.getValues 100 1 (fst written)) = Return (Ok [v])).
Proof.
  intros _. split.
  - rewrite getValues_result. vm_compute. reflexivity.
  - apply single_value_round_trip; [|reflexivity].
    unfold legal_address. vm_compute. split; [discriminate|reflexivity].
Qed.

Lemma scenario_A_as_configured_witness :
  snd (EchoServer.getValues 100 1 (hr store, [])) = Return (Ok [1100])
  /\ snd (EchoServer.setValues 100 (PyInt 1200) (hr store, []))
     = Return (Ok tt)
  /\ snd (EchoServer.getValues 100 1
            (fst (EchoServer.setValues 100 (PyInt 1200) (hr store, []))))
     = Return (Ok [1200]).
Proof.
  apply (scenario_A_as_configured [] 1200). unfold uint16. lia.
Defined.

(** *** Which banks report to the logger *)

Lemma plain_block_is_silent (b : DataBlock) (log : list LogRecord)
      (a : Z) (count : nat) (vals : Values) :
  class b = Plain ->
  snd (fst (EchoServer.getValues a count (b, log))) = log
  /\ snd (fst (EchoServer.setValues a vals (b, log))) = log.
Proof.
  intros Hc. unfold EchoServer.getValues, EchoServer.setValues.
  rewrite Hc. unfold plain_setValues.
  destruct (ModbusSequentialDataBlock.setValues (base b) a vals).
  split; reflexivity.
Qed.

Lemma logging_block_reads (b : DataBlock) (log : list LogRecord)
      (a : Z) (count : nat) :
  class b = Logging ->
  snd (fst (EchoServer.getValues a count (b, log)))
  = (log ++ [(INFO, ("READ: Address=" ++ str_int a
                    ++ ", Count=" ++ str_nat count
                    ++ ", Values="
                    ++ str_read (ModbusSequentialDataBlock.getValues
                                   (base b) a count))%string)])%list.
Proof.
  intros Hc. unfold EchoServer.getValues. rewrite Hc. reflexivity.
Qed.

Lemma logging_block_writes (b : DataBlock) (log : list LogRecord)
      (a : Z) (vals : Values) :
  class b = Logging ->
  snd (fst (EchoServer.setValues a vals (b, log)))
  = (log ++ [(INFO, (match vals with
                    | PyList l => "WRITE: Address=" ++ str_int a
                                  ++ ", Count=" ++ str_nat (List.length l)
                                  ++ ", Values=" ++ str_list l
                    | PyInt v => "WRITE: Address=" ++ str_int a
                                 ++ ", Value=" ++ str_int v
                    end)%string)])%list.
Proof.
  intros Hc. unfold EchoServer.setValues, LoggingDataBlock.setValues.
  rewrite Hc. unfold plain_setValues.
  destruct vals; simpl;
    destruct (ModbusSequentialDataBlock.setValues (base b) a _); reflexivity.
Qed.

Lemma set_bank_same (kind : BankKind) (ctx : ModbusSlaveContext) :
  set_bank kind (bank kind ctx) ctx = ctx.
Proof. destruct kind, ctx; reflexivity. Qed.

Lemma set_bank_classes (kind : BankKind) (b : DataBlock)
      (ctx : ModbusSlaveContext) :
  class b = class (bank kind ctx) ->
  classes_of_store ctx -> classes_of_store (set_bank kind b ctx).
Proof.
  unfold classes_of_store. destruct kind; simpl; intros ->; tauto.
Qed.

Lemma serve_keeps_classes (op : Operation) (srv : Server) :
  classes_of_store (context srv) -> classes_of_store (context (serve op srv)).
Proof.
  intros H. destruct op as [kind a count | kind a vals]; unfold serve.
  - unfold read.
    pose proof (getValues_block (bank kind (context srv)) (log srv) a count) as Hb.
    destruct (EchoServer.getValues a count (bank kind (context srv), log srv))
      as [[b' log'] o].
    simpl in *. subst b'. now rewrite set_bank_same.
  - unfold write.
    pose proof (setValues_block (bank kind (context srv)) (log srv) a vals) as Hb.
    destruct (EchoServer.setValues a vals (bank kind (context srv), log srv))
      as [[b' log'] o].
    simpl in *. apply set_bank_classes; [|exact H]. now subst b'.
Qed.

Lemma classes_kept_from (ops : list Operation) (srv : Server) :
  classes_of_store (context srv) ->
  classes_of_store (context (fold_left (fun s op => serve op s) ops srv)).
Proof.
  revert srv. induction ops as [|op ops IH]; intros srv H; simpl.
  - exact H.
  - apply IH, serve_keeps_classes, H.
Qed.

Lemma classes_after (ops : list Operation) :
  classes_of_store (context (after ops)).
Proof.
  apply classes_kept_from. repeat split.
Qed.

Lemma read_log (kind : BankKind) (a : Z) (count : nat) (srv : Server) :
  log (fst (read kind a count srv))
  = snd (fst (EchoServer.getValues a count (bank kind (context srv), log srv))).
Proof.
  unfold read.
  destruct (EchoServer.getValues a count (bank kind (context srv), log srv))
    as [[b' log'] o]. reflexivity.
Qed.

Lemma write_log (kind : BankKind) (a : Z) (vals : Values) (srv : Server) :
  log (fst (write kind a vals srv))
  = snd (fst (EchoServer.setValues a vals (bank kind (context srv), log srv))).
Proof.
  unfold write.
  destruct (EchoServer.setValues a vals (bank kind (context srv), log srv))
    as [[b' log'] o]. reflexivity.
Qed.

Lemma read_context (kind : BankKind) (a : Z) (count : nat) (srv : Server) :
  context (fst (read kind a count srv)) = context srv.
Proof.
  unfold read.
  pose proof (getValues_block (bank kind (context srv)) (log srv) a count) as Hb.
  destruct (EchoServer.getValues a count (bank kind (context srv), log srv))
    as [[b' log'] o].
  simpl in *. subst b'. apply set_bank_same.
Qed.

(** C3, the claim as stated fails: a read of the coil bank is served and
    the logger is handed nothing. *)
Lemma four_banks_reported_counterexample :
  ~ (forall (kind : BankKind) (a : Z) (count : nat),
        reported started (fst (read kind a count started))).
Proof.
  intros H. destruct (H Coils 0 1%nat) as [r Hr].
  vm_compute in Hr. discriminate Hr.
Qed.

(** C3, amended.  Of the four banks of the slave's store only the holding
    registers are a logging block.  In every state the server reaches,
    a read of the holding registers hands the logger exactly one record,
    with the operation kind, the address, the count and the values
    returned, and changes nothing in the store; a write of the holding
    registers hands it exactly one record, with the operation kind, the
    address and the count and values (or the single value); a read or a
    write of the discrete inputs, the coils or the input registers hands
    the logger nothing. *)
Theorem holding_registers_reported
        (ops : list Operation) (a : Z) (count : nat) (vals : Values) :
  let srv := after ops in
  (log (fst (read HoldingRegisters a count srv))
   = (log srv
      ++ [(INFO, ("READ: Address=" ++ str_int a
                 ++ ", Count=" ++ str_nat count
                 ++ ", Values="
                 ++ str_read (ModbusSequentialDataBlock.getValues
                                (base (hr (context srv))) a count))%string)])%list
   /\ context (fst (read HoldingRegisters a count srv)) = context srv)
  /\ log (fst (write HoldingRegisters a vals srv))
     = (log srv
        ++ [(INFO, (match vals with
                   | PyList l => "WRITE: Address=" ++ str_int a
                                 ++ ", Count=" ++ str_nat (List.length l)
                                 ++ ", Values=" ++ str_list l
                   | PyInt v => "WRITE: Address=" ++ str_int a
                                ++ ", Value=" ++ str_int v
                   end)%string)])%list
  /\ (forall kind : BankKind,
         kind <> HoldingRegisters ->
         log (fst (read kind a count srv)) = log srv
         /\ log (fst (write kind a vals srv)) = log srv).
Proof.
  intros srv. destruct (classes_after ops) as (Hdi & Hco & Hhr & Hir).
  fold srv in Hdi, Hco, Hhr, Hir.
  repeat split.
  - rewrite read_log. now apply logging_block_reads.
  - apply read_context.
  - rewrite write_log. now apply logging_block_writes.
  - rewrite read_log.
    apply (plain_block_is_silent _ _ a count vals).
    destruct kind; simpl; congruence.
  - rewrite write_log.
    apply (plain_block_is_silent _ _ a count vals).
    destruct kind; simpl; congruence.
Qed.

Lemma holding_registers_reported_witness :
  log (fst (read HoldingRegisters 10 1 started))
    = [(INFO, "READ: Address=10, Count=1, Values=[1010]")]
  /\ log (fst (write HoldingRegisters 10 (PyInt 7) started))
     = [(INFO, "WRITE: Address=10, Value=7")]
  /\ log (fst (read InputRegisters 10 1 started)) = []
  /\ log (fst (write InputRegisters 10 (PyInt 7) started)) = [].
Proof.
  pose proof (holding_registers_reported [] 10 1 (PyInt 7)) as H.
  cbv zeta in H. change (after []) with started in H.
  destruct H as ((Hr & _) & Hw & Hothers).
  destruct (Hothers InputRegisters) as (Hir & Hiw); [discriminate|].
  split; [|split; [|split]].
  - rewrite Hr. vm_compute. reflexivity.
  - rewrite Hw. vm_compute. reflexivity.
  - rewrite Hir. reflexivity.
  - rewrite Hiw. reflexivity.
Defined.

End Store_properties.

(** ** The logging wrapper *)

Section Logging_transparency.

Import EchoServer.

Variables Block Read Ack : Type.
Variable str_read : Read -> string.
Variable super_getValues : Block -> Z -> nat -> Block * Outcome Read.
Variable super_setValues : Block -> Z -> Values -> Block * Outcome Ack.

(** C9.  Logging is value-transparent: whatever the superclass does,
    [LoggingDataBlock.getValues] returns exactly what the plain
    [getValues] returns and [LoggingDataBlock.setValues] leaves the block
    in exactly the state, and returns exactly what, the plain [setValues]
    does; the two differ in the log alone. *)
Theorem logging_is_value_transparent
        (self : Block) (log : list LogRecord)
        (address : Z) (count : nat) (values : Values) :
  (let r := LoggingDataBlock.getValues str_read super_getValues
                                       address count (self, log) in
   (fst (fst r), snd r) = super_getValues self address count)
  /\ (let w := LoggingDataBlock.setValues super_setValues
                                          address values (self, log) in
      (fst (fst w), snd w) = super_setValues self address values).
Proof.
  unfold LoggingDataBlock.getValues, LoggingDataBlock.setValues. split.
  - destruct (super_getValues self address count) as [self' [v|e|]];
      reflexivity.
  - destruct values; simpl;
      destruct (super_setValues self address _) as [self' o]; reflexivity.
Qed.

End Logging_transparency.

(** ** The result recorder *)

Section Recorder_properties.

Import ClientTester.

Lemma success_runs (test_name : string) (st : State) :
  success test_name st
  = ({| test_result := {| passed := passed (test_result st) + 1;
                          failed := failed (test_result st);
                          errors := errors (test_result st) |};
        log := (log st ++ [(INFO, ("✅ " ++ test_name)%string)])%list;
        history := history st |}, Return tt).
Proof. reflexivity. Qed.

Lemma failure_runs (test_name reason : string) (st : State) :
  failure test_name reason st
  = ({| test_result :=
          {| passed := passed (test_result st);
             failed := failed (test_result st) + 1;
             errors := (errors (test_result st)
                        ++ [(test_name ++ ": " ++ reason)%string])%list |};
        log := (log st ++ [(ERROR, ("❌ " ++ test_name ++ " - " ++ reason)%string)])%list;
        history := history st |}, Return tt).
Proof. reflexivity. Qed.

Lemma recorder_call_returns (c : RecorderCall) (st : State) :
  snd (recorder_call c st) = Return tt.
Proof. destruct c; reflexivity. Qed.

Lemma for_each_log_info (l : list string) (f : string -> string) (st : State) :
  for_each l (fun x => log_info (f x)) st
  = ({| test_result := test_result st;
        log := (log st ++ map (fun x => (INFO, f x)) l)%list;
        history := history st |}, Return tt).
Proof.
  revert st. induction l as [|x l IH]; intros st; simpl.
  - unfold ret. rewrite app_nil_r. now destruct st.
  - unfold bind at 1. simpl. rewrite IH. simpl.
    now rewrite <- app_assoc.
Qed.

Lemma summary_runs (st : State) :
  test_result (fst (summary st)) = test_result st
  /\ history (fst (summary st)) = history st
  /\ snd (summary st) = Return (failed (test_result st) =? 0)%nat.
Proof.
  unfold summary, bind, get_result. simpl.
  destruct (0 <? failed (test_result st))%nat; simpl.
  - rewrite for_each_log_info. simpl. repeat split.
  - repeat split.
Qed.

(** The recorder after a sequence of calls, from any state. *)
Lemma recorder_from (calls : list RecorderCall) (st : State) :
  let st' := fst (for_each calls recorder_call st) in
  snd (for_each calls recorder_call st) = Return tt
  /\ passed (test_result st')
     = (passed (test_result st) + List.length (filter is_success calls))%nat
  /\ failed (test_result st')
     = (failed (test_result st)
        + List.length (filter (fun c => negb (is_success c)) calls))%nat
  /\ errors (test_result st') = (errors (test_result st) ++ entries calls)%list.
Proof.
  revert st. induction calls as [|c calls IH]; intros st; simpl.
  - rewrite app_nil_r. repeat split; lia.
  - unfold bind at 1 2 3 4.
    destruct c as [n|n r]; simpl recorder_call.
    + rewrite success_runs.
      destruct (IH {| test_result := {| passed := passed (test_result st) + 1;
                                        failed := failed (test_result st);
                                        errors := errors (test_result st) |};
                      log := (log st ++ [(INFO, ("✅ " ++ n)%string)])%list;
                      history := history st |}) as (H0 & H1 & H2 & H3).
      simpl in *. rewrite H1, H2, H3. repeat split; auto; lia.
    + rewrite failure_runs.
      destruct (IH {| test_result :=
                        {| passed := passed (test_result st);
                           failed := failed (test_result st) + 1;
                           errors := (errors (test_result st)
                                      ++ [(n ++ ": " ++ r)%string])%list |};
                      log := (log st ++ [(ERROR, ("❌ " ++ n ++ " - " ++ r)%string)])%list;
                      history := history st |}) as (H0 & H1 & H2 & H3).
      simpl in *. rewrite H1, H2, H3, <- app_assoc.
      repeat split; auto; lia.
Qed.

(** C10.  The recorder's invariant: after any sequence of [success] and
    [failure] calls on a fresh [TestResult], [passed] is the number of
    [success] calls, [failed] the number of [failure] calls, [errors] holds
    one entry per [failure] call in call order (so that its length is
    [failed]); and [summary] returns, leaves the three fields as they are,
    and returns [True] exactly when [failed] is 0. *)
Theorem recorder_invariant (calls : list RecorderCall) :
  let st := fst (for_each calls recorder_call initial_state) in
  passed (test_result st) = List.length (filter is_success calls)
  /\ failed (test_result st)
     = List.length (filter (fun c => negb (is_success c)) calls)
  /\ errors (test_result st) = entries calls
  /\ List.length (errors (test_result st)) = failed (test_result st)
  /\ test_result (fst (summary st)) = test_result st
  /\ (snd (summary st) = Return true <-> failed (test_result st) = 0%nat)
  /\ (snd (summary st) = Return false <-> failed (test_result st) <> 0%nat).
Proof.
  intros st.
  destruct (recorder_from calls initial_state) as (_ & Hp & Hf & He).
  fold st in Hp, Hf, He. simpl in Hp, Hf, He.
  destruct (summary_runs st) as (Hs & _ & Hr).
  repeat split; auto.
  - rewrite He, Hf. clear. induction calls as [|[n|n r] calls IH]; simpl; auto.
  - rewrite Hr. intros H. injection H as H. now apply Nat.eqb_eq.
  - rewrite Hr. intros H. f_equal. now apply Nat.eqb_eq.
  - rewrite Hr. intros H. injection H as H. now apply Nat.eqb_neq.
  - rewrite Hr. intros H. f_equal. now apply Nat.eqb_neq.
Qed.

End Recorder_properties.

(** ** Running statements *)

Section Statement_facts.

Import ClientTester.

Lemma bind_Return {A B} (m : M A) (f : A -> M B) (st st1 : State) (a : A) :
  m st = (st1, Return a) -> bind m f st = f a st1.
Proof. intros E. unfold bind. now rewrite E. Qed.

Lemma bind_Raise {A B} (m : M A) (f : A -> M B) (st st1 : State) (e : string) :
  m st = (st1, Raise e) -> bind m f st = (st1, Raise e).
Proof. intros E. unfold bind. now rewrite E. Qed.

Lemma bind_Interrupt {A B} (m : M A) (f : A -> M B) (st st1 : State) :
  m st = (st1, KeyboardInterrupt) -> bind m f st = (st1, KeyboardInterrupt).
Proof. intros E. unfold bind. now rewrite E. Qed.

Lemma try_except_Return {A} (body : M A) (handler : string -> M A)
      (st st1 : State) (a : A) :
  body st = (st1, Return a) -> try_except body handler st = (st1, Return a).
Proof. intros E. unfold try_except. now rewrite E. Qed.

Lemma try_except_Raise {A} (body : M A) (handler : string -> M A)
      (st st1 : State) (e : string) :
  body st = (st1, Raise e) -> try_except body handler st = handler e st1.
Proof. intros E. unfold try_except. now rewrite E. Qed.

Lemma try_except_Interrupt {A} (body : M A) (handler : string -> M A)
      (st st1 : State) :
  body st = (st1, KeyboardInterrupt) ->
  try_except body handler st = (st1, KeyboardInterrupt).
Proof. intros E. unfold try_except. now rewrite E. Qed.

Variable env : Environment.

Lemma client_request_runs (rq : Request) (st : State) :
  client_request env rq st
  = (entered (Exchange rq (on_request env (history st) rq)) st,
     on_request env (history st) rq).
Proof.
  unfold client_request, bind, record, lift, entered.
  destruct (on_request env (history st) rq); reflexivity.
Qed.

Lemma time_sleep_runs (ms : Z) (st : State) :
  time_sleep env ms st
  = (entered (Sleep ms (on_sleep env (history st) ms)) st,
     on_sleep env (history st) ms).
Proof.
  unfold time_sleep, bind, record, lift, entered.
  destruct (on_sleep env (history st) ms); reflexivity.
Qed.

Lemma client_close_runs (st : State) :
  client_close env st
  = (entered (Close (on_close env (history st))) st, on_close env (history st)).
Proof.
  unfold client_close, bind, record, lift, entered.
  destruct (on_close env (history st)); reflexivity.
Qed.

Lemma client_connect_runs (st : State) :
  client_connect env st
  = (entered (Connect (on_connect env (history st))) st,
     on_connect env (history st)).
Proof.
  unfold client_connect, bind, record, lift, entered.
  destruct (on_connect env (history st)); reflexivity.
Qed.

Lemma client_connect_runs_to (st : State) (o : Outcome bool) :
  on_connect env (history st) = o ->
  client_connect env st = (entered (Connect o) st, o).
Proof. intros <-. apply client_connect_runs. Qed.

Lemma guarded_request {A} (rq : Request) (k : Response -> M A)
      (handler : string -> M A) (st : State) :
  try_except (bind (client_request env rq) k) handler st
  = match on_request env (history st) rq with
    | Return a =>
        try_except (k a) handler
                   (entered (Exchange rq (on_request env (history st) rq)) st)
    | Raise e =>
        handler e (entered (Exchange rq (on_request env (history st) rq)) st)
    | KeyboardInterrupt =>
        (entered (Exchange rq (on_request env (history st) rq)) st,
         KeyboardInterrupt)
    end.
Proof.
  unfold try_except, bind. rewrite client_request_runs.
  destruct (on_request env (history st) rq); reflexivity.
Qed.

Lemma bind_sleep {B} (ms : Z) (f : unit -> M B) (st : State) :
  bind (time_sleep env ms) f st
  = match on_sleep env (history st) ms with
    | Return a => f a (entered (Sleep ms (on_sleep env (history st) ms)) st)
    | Raise e =>
        (entered (Sleep ms (on_sleep env (history st) ms)) st, Raise e)
    | KeyboardInterrupt =>
        (entered (Sleep ms (on_sleep env (history st) ms)) st,
         KeyboardInterrupt)
    end.
Proof.
  unfold bind. rewrite time_sleep_runs.
  destruct (on_sleep env (history st) ms); reflexivity.
Qed.

Lemma bind_log_info {B} (msg : string) (f : unit -> M B) (st : State) :
  bind (log_info msg) f st
  = f tt {| test_result := test_result st;
            log := (log st ++ [(INFO, msg)])%list;
            history := history st |}.
Proof. reflexivity. Qed.

Lemma bind_update_result {B} (g : TestResult -> TestResult)
      (f : unit -> M B) (st : State) :
  bind (update_result g) f st
  = f tt {| test_result := g (test_result st);
            log := log st;
            history := history st |}.
Proof. reflexivity. Qed.

Lemma test_connection_runs (st : State) :
  test_connection env st
  = match on_connect env (history st) with
    | Return b => (entered (Connect (Return b)) st, Return b)
    | Raise e =>
        ({| test_result := test_result st;
            log := (log st ++ [(ERROR, ("Connection error: " ++ e)%string)])%list;
            history := (history st ++ [Connect (Raise e)])%list |},
         Return false)
    | KeyboardInterrupt =>
        (entered (Connect KeyboardInterrupt) st, KeyboardInterrupt)
    end.
Proof.
  unfold test_connection, try_except, bind. rewrite client_connect_runs.
  destruct (on_connect env (history st)) as [[|]|e|]; reflexivity.
Qed.

End Statement_facts.

(** ** The test cases *)

Section Case_properties.

Import ClientTester.

Variable env : Environment.

(** C4.  The negative test reads one register at address 999; when the
    response is a Modbus exception reply, or when the call raises an
    exception, the case records a pass; when a normal response with
    register values comes back, the case records a failure. *)
Theorem invalid_address_inverted (st : State) :
  let rq := read_holding_registers 999 1 SLAVE_ID in
  let o := on_request env (history st) rq in
  let st' := fst (test_invalid_address env st) in
  history st' = (history st ++ [Exchange rq o])%list
  /\ (forall text, o = Return (ErrorResponse text) -> pass_recorded st st')
  /\ (forall e, o = Raise e -> pass_recorded st st')
  /\ (forall regs, o = Return (RegistersResponse regs) ->
      failure_recorded
        ("Invalid Address Test: Should have failed but got: " ++ str_list regs)
        st st').
Proof.
  intros rq o st'. subst st'.
  unfold test_invalid_address, try_except, bind, client_request, record, lift.
  fold rq. fold o.
  destruct o as [[regs|text]|e|]; simpl; repeat split;
    intros; try discriminate;
    match goal with
    | H : Return _ = Return _ |- _ => injection H as <-; reflexivity
    end.
Qed.

(** C8.  The write-read-verify case writes the sentinel 9999 at address
    102, pauses and reads it back.  When the write and the read-back both
    complete with a normal response (and the pause returns): if the value
    read differs from the sentinel, a
    failure is recorded whose detail names a value mismatch; if it equals
    the sentinel, a success is recorded.  The detail of a mismatch differs
    from the detail recorded when the read-back gets an exception reply
    and from the one recorded when it raises. *)
Theorem write_read_verify_outcomes (st : State) (ack : list Z) :
  let write_rq := write_register 102 9999 SLAVE_ID in
  let read_rq := read_holding_registers 102 1 SLAVE_ID in
  let h1 := (history st
             ++ [Exchange write_rq (Return (RegistersResponse ack))])%list in
  let h2 := (h1 ++ [Sleep 100 (Return tt)])%list in
  let o := on_request env h2 read_rq in
  let st1 := fst (test_single_register_write env 102 9999 st) in
  let st' := fst (test_write_read_verify env st) in
  on_request env (history st) write_rq = Return (RegistersResponse ack) ->
  on_sleep env h1 100 = Return tt ->
  pass_recorded st st1
  /\ (forall v rest, o = Return (RegistersResponse (v :: rest)) ->
      v = 9999 -> pass_recorded st1 st')
  /\ (forall v rest, o = Return (RegistersResponse (v :: rest)) ->
      v <> 9999 ->
      failure_recorded
        ("Write-Read-Verify: Value mismatch: wrote 9999, read " ++ str_int v)
        st1 st')
  /\ (forall text, o = Return (ErrorResponse text) ->
      failure_recorded ("Write-Read-Verify: Read error: " ++ text) st1 st')
  /\ (forall e, o = Raise e ->
      failure_recorded ("Write-Read-Verify: Exception: " ++ e) st1 st')
  /\ (forall v text e,
         "Value mismatch: wrote 9999, read " ++ str_int v
           <> "Read error: " ++ text
         /\ "Value mismatch: wrote 9999, read " ++ str_int v
              <> "Exception: " ++ e
         /\ "Value mismatch: wrote 9999, read " ++ str_int v
              <> "Modbus error: " ++ text).
Proof.
  intros write_rq read_rq h1 h2 o st1 st' Hw Hs.
  assert (E1 : test_single_register_write env 102 9999 st
               = ({| test_result :=
                       {| passed := passed (test_result st) + 1;
                          failed := failed (test_result st);
                          errors := errors (test_result st) |};
                     log := (log st
                             ++ [(INFO, "✅ Single Register Write - Addr 102: 9999")])%list;
                     history := h1 |}, Return true)).
  { unfold test_single_register_write.
    rewrite guarded_request. fold write_rq. rewrite Hw. reflexivity. }
  subst st1 st'. unfold test_write_read_verify.
  change (SERVER_REGISTER_START + 2) with 102.
  erewrite bind_Return by exact E1. rewrite E1. cbn [negb fst].
  rewrite bind_sleep. cbn [history]. rewrite Hs.
  rewrite guarded_request.
  unfold entered. cbn [history test_result log].
  fold h2. fold read_rq. fold o.
  split; [repeat split|].
  split; [|split; [|split; [|split]]].
  - intros v rest Ho Hv. subst v. rewrite Ho. repeat split.
  - intros v rest Ho Hv. rewrite Ho.
    unfold try_except, bind. cbn [isError registers index0 ret].
    destruct (v =? 9999)%Z eqn:Ev; [apply Z.eqb_eq in Ev; contradiction|].
    repeat split.
  - intros text Ho. rewrite Ho. repeat split.
  - intros e Ho. rewrite Ho. repeat split.
  - intros v text e. repeat split; discriminate.
Qed.

End Case_properties.

(** ** The sequence of cases *)

Section Sequence_facts.

Import ClientTester.

Variable env : Environment.

Lemma requests_app (h1 h2 : list Event) :
  requests (h1 ++ h2) = (requests h1 ++ requests h2)%list.
Proof. apply flat_map_app. Qed.

Lemma orderly_weaken {A} (m : M A) (P Q : list Event -> nat -> A -> Prop) :
  orderly m P ->
  (forall evs n a, P evs n a -> Q evs n a) ->
  orderly m Q.
Proof.
  intros Hm HPQ st. destruct (Hm st) as (evs & Hh & Ho).
  exists evs. split; [exact Hh|].
  destruct (forallb quiet evs); [|exact Ho].
  destruct Ho as (a & n & Hr & Hn & HP). exists a, n. auto.
Qed.

Lemma orderly_bind {A B} (m : M A) (f : A -> M B)
      (P : list Event -> nat -> A -> Prop)
      (Q : A -> list Event -> nat -> B -> Prop) :
  orderly m P ->
  (forall a, orderly (f a) (Q a)) ->
  orderly (bind m f)
          (fun evs n b =>
             exists evs1 evs2 n1 n2 a,
               evs = (evs1 ++ evs2)%list /\ n = (n1 + n2)%nat
               /\ P evs1 n1 a /\ Q a evs2 n2 b).
Proof.
  intros Hm Hf st. destruct (Hm st) as (evs1 & Hh1 & Ho1).
  unfold bind. destruct (m st) as [st1 o1] eqn:Em. simpl in Hh1, Ho1.
  destruct (forallb quiet evs1) eqn:Eq1.
  - destruct Ho1 as (a & n1 & -> & Hn1 & HP).
    destruct (Hf a st1) as (evs2 & Hh2 & Ho2).
    exists (evs1 ++ evs2)%list. split.
    + rewrite Hh2, Hh1. apply eq_sym, app_assoc.
    + rewrite forallb_app, Eq1. simpl.
      destruct (forallb quiet evs2); [|exact Ho2].
      destruct Ho2 as (b & n2 & Hr & Hn2 & HQ).
      exists b, (n1 + n2)%nat. split; [exact Hr|]. split; [lia|].
      exists evs1, evs2, n1, n2, a. auto.
  - exists evs1. rewrite Eq1.
    destruct o1 as [a|e|]; simpl.
    + now destruct (Ho1 a).
    + split; [exact Hh1|]. discriminate.
    + split; [exact Hh1|]. discriminate.
Qed.

Lemma orderly_ret {A} (a : A) :
  orderly (ret a) (fun evs n b => evs = [] /\ n = 0%nat /\ b = a).
Proof.
  intros st. exists []. simpl. split; [now rewrite app_nil_r|].
  exists a, 0%nat. repeat split. lia.
Qed.

Lemma orderly_log_info (msg : string) :
  orderly (log_info msg) (fun evs n _ => evs = [] /\ n = 0%nat).
Proof.
  intros st. exists []. simpl. split; [now rewrite app_nil_r|].
  exists tt, 0%nat. repeat split. unfold recorded. simpl. lia.
Qed.

Lemma orderly_sleep (ms : Z) :
  orderly (time_sleep env ms)
          (fun evs n _ => requests evs = [] /\ n = 0%nat).
Proof.
  intros st. rewrite time_sleep_runs.
  exists [Sleep ms (on_sleep env (history st) ms)]. split; [reflexivity|].
  simpl. destruct (on_sleep env (history st) ms) as [[]|e|]; simpl.
  - exists tt, 0%nat. repeat split. unfold recorded. simpl. lia.
  - discriminate.
  - discriminate.
Qed.

(** A request under [try ... except Exception], when what follows the
    request and what handles an exception each record one outcome, make no
    call and return. *)
Lemma orderly_guarded {A} (rq : Request) (k : Response -> M A)
      (handler : string -> M A) (val : Outcome Response -> A -> Prop) :
  (forall r st, exists b,
      snd (try_except (k r) handler st) = Return b
      /\ history (fst (try_except (k r) handler st)) = history st
      /\ recorded (fst (try_except (k r) handler st)) = (recorded st + 1)%nat
      /\ val (Return r) b) ->
  (forall e st, exists b,
      snd (handler e st) = Return b
      /\ history (fst (handler e st)) = history st
      /\ recorded (fst (handler e st)) = (recorded st + 1)%nat
      /\ val (Raise e) b) ->
  orderly (try_except (bind (client_request env rq) k) handler)
          (fun evs n b =>
             exists o, evs = [Exchange rq o] /\ n = 1%nat /\ val o b).
Proof.
  intros Hk Hh st. rewrite guarded_request.
  set (o := on_request env (history st) rq).
  exists [Exchange rq o]. destruct o as [r|e|] eqn:Eo; simpl.
  - destruct (Hk r (entered (Exchange rq (Return r)) st))
      as (b & Hr & Hhist & Hn & Hv).
    split; [exact Hhist|]. exists b, 1%nat.
    repeat split; auto. exists (Return r). auto.
  - destruct (Hh e (entered (Exchange rq (Raise e)) st))
      as (b & Hr & Hhist & Hn & Hv).
    split; [exact Hhist|]. exists b, 1%nat.
    repeat split; auto. exists (Raise e). auto.
  - split; [reflexivity|]. discriminate.
Qed.

(** What follows a request, or handles its exception, in every case:
    it records one outcome, makes no call and returns. *)
Ltac settle :=
  eexists; split; [reflexivity|];
  split; [reflexivity|];
  split; [unfold recorded; simpl; lia|]; auto.

Lemma orderly_single_read :
  orderly (test_single_register_read env)
          (fun evs n a =>
             exists o,
               evs = [Exchange (read_holding_registers 100 1 1) o]
               /\ n = 1%nat /\ a = value_read o).
Proof.
  unfold test_single_register_read.
  apply (orderly_guarded _ _ _ (fun o a => a = value_read o)).
  - intros [[|v l]|text] st; settle.
  - intros e st; settle.
Qed.

Lemma orderly_multiple_read (start_addr count : Z) :
  orderly (test_multiple_register_read env start_addr count)
          (fun evs n _ =>
             requests evs = [read_holding_registers start_addr count 1]
             /\ n = 1%nat).
Proof.
  unfold test_multiple_register_read.
  eapply orderly_weaken.
  - apply (orderly_guarded _ _ _ (fun _ _ => True)).
    + intros [l|text] st; settle.
    + intros e st; settle.
  - intros evs n a (o & -> & -> & _). auto.
Qed.

Lemma orderly_single_write (address value : Z) :
  orderly (test_single_register_write env address value)
          (fun evs n _ =>
             requests evs = [write_register address value 1] /\ n = 1%nat).
Proof.
  unfold test_single_register_write.
  eapply orderly_weaken.
  - apply (orderly_guarded _ _ _ (fun _ _ => True)).
    + intros [l|text] st; settle.
    + intros e st; settle.
  - intros evs n a (o & -> & -> & _). auto.
Qed.

Lemma orderly_multiple_write (start_addr : Z) (values : list Z) :
  orderly (test_multiple_register_write env start_addr values)
          (fun evs n _ =>
             requests evs = [write_registers start_addr values 1]
             /\ n = 1%nat).
Proof.
  unfold test_multiple_register_write.
  eapply orderly_weaken.
  - apply (orderly_guarded _ _ _ (fun _ _ => True)).
    + intros [l|text] st; settle.
    + intros e st; settle.
  - intros evs n a (o & -> & -> & _). auto.
Qed.

Lemma orderly_invalid_address :
  orderly (test_invalid_address env)
          (fun evs n _ =>
             requests evs = [read_holding_registers 999 1 1] /\ n = 1%nat).
Proof.
  unfold test_invalid_address.
  eapply orderly_weaken.
  - apply (orderly_guarded _ _ _ (fun _ _ => True)).
    + intros [l|text] st; settle.
    + intros e st; settle.
  - intros evs n a (o & -> & -> & _). auto.
Qed.

Lemma orderly_boundary :
  orderly (test_boundary_addresses env)
          (fun evs n _ =>
             requests evs = [read_holding_registers 100 1 1;
                             read_holding_registers 109 1 1]
             /\ n = 2%nat).
Proof.
  unfold test_boundary_addresses.
  eapply orderly_weaken.
  - eapply orderly_bind.
    + apply (orderly_guarded _ _ _ (fun _ _ => True)).
      * intros [[|v l]|text] st; settle.
      * intros e st; settle.
    + intros ?. apply (orderly_guarded _ _ _ (fun _ _ => True)).
      * intros [[|v l]|text] st; settle.
      * intros e st; settle.
  - intros evs n a (evs1 & evs2 & n1 & n2 & a1 & -> & -> & H1 & H2).
    destruct H1 as (o1 & -> & -> & _). destruct H2 as (o2 & -> & -> & _).
    auto.
Qed.

(** The write-read-verify case sends its write, and its read-back only
    when the write was recorded as a success. *)
Lemma orderly_write_read_verify :
  orderly (test_write_read_verify env)
          (fun evs n _ =>
             exists read_back,
               requests evs = (write_register 102 9999 1 :: read_back)
               /\ (read_back = []
                   \/ read_back = [read_holding_registers 102 1 1])
               /\ n = (1 + List.length read_back)%nat).
Proof.
  unfold test_write_read_verify.
  eapply orderly_weaken.
  - eapply orderly_bind.
    + apply orderly_single_write.
    + intros written.
      instantiate (1 := fun written evs n _ =>
                          if written
                          then requests evs = [read_holding_registers 102 1 1]
                               /\ n = 1%nat
                          else evs = [] /\ n = 0%nat).
      destruct written; cbn [negb].
      * eapply orderly_weaken.
        -- eapply orderly_bind.
           ++ apply orderly_sleep.
           ++ intros ?. apply (orderly_guarded _ _ _ (fun _ _ => True)).
              ** intros [[|v l]|text] st; try settle.
                 unfold try_except, bind. cbn [isError registers index0 ret].
                 destruct (v =? 9999)%Z; settle.
              ** intros e st; settle.
        -- intros evs n a (evs1 & evs2 & n1 & n2 & a1 & -> & -> & H1 & H2).
           destruct H1 as (Hr1 & ->). destruct H2 as (o2 & -> & -> & _).
           rewrite requests_app, Hr1. auto.
      * eapply orderly_weaken; [apply orderly_ret|].
        intros evs n a (-> & -> & _). auto.
  - intros evs n a (evs1 & evs2 & n1 & n2 & written & -> & -> & H1 & H2).
    destruct H1 as (Hr1 & ->). rewrite requests_app, Hr1.
    destruct written.
    + destruct H2 as (Hr2 & ->). rewrite Hr2.
      exists [read_holding_registers 102 1 1]. auto.
    + destruct H2 as (-> & ->). exists []. auto.
Qed.

Lemma orderly_suite :
  orderly (test_suite env) (fun evs n _ => suite_shape evs n).
Proof.
  unfold test_suite.
  eapply orderly_weaken.
  - eapply orderly_bind; [apply orderly_log_info|intros ?].
    eapply orderly_bind; [apply orderly_log_info|intros ?].
    eapply orderly_bind; [apply orderly_single_read|intros original_value].
    eapply orderly_bind; [apply orderly_multiple_read|intros ?].
    eapply orderly_bind.
    { instantiate (1 := fun evs n _ =>
                          requests evs = single_write original_value
                          /\ n = List.length (single_write original_value)).
      destruct original_value as [v|].
      - eapply orderly_weaken.
        + eapply orderly_bind; [apply orderly_single_write|intros ?].
          apply orderly_ret.
        + intros evs n w (evs1 & evs2 & n1 & n2 & w1 & -> & -> & H1 & H2).
          destruct H1 as (Hr & ->). destruct H2 as (-> & -> & _).
          rewrite app_nil_r. auto.
      - eapply orderly_weaken; [apply orderly_ret|].
        intros evs n w (-> & -> & _). auto. }
    intros ?.
    eapply orderly_bind; [apply orderly_multiple_write|intros ?].
    eapply orderly_bind; [apply orderly_write_read_verify|intros ?].
    eapply orderly_bind; [apply orderly_boundary|intros ?].
    eapply orderly_bind; [apply orderly_invalid_address|intros ?].
    apply orderly_sleep.
  - cbv beta. intros evs n u H.
    repeat match goal with
           | H : exists _, _ |- _ => destruct H
           | H : _ /\ _ |- _ => destruct H
           end.
    subst. unfold suite_shape.
    match goal with
    | Hrb : ?rb = [] \/ ?rb = [_] |- _ =>
        match goal with
        | |- context [Exchange _ ?o :: _] =>
            exists o; eexists; exists rb
        end
    end.
    split; [reflexivity|].
    rewrite !requests_app.
    repeat match goal with
           | H : requests _ = _ |- _ => rewrite H
           end.
    split; [simpl; reflexivity|].
    split; [assumption|lia].
Qed.

(** What [guarded_suite] comes to, from the run of the suite and the
    outcome of [close]. *)
Lemma guarded_suite_runs (st : State) :
  let r := test_suite env st in
  let c := on_close env (history (fst r)) in
  let run := guarded_suite env st in
  history (fst run) = (history (fst r) ++ [Close c])%list
  /\ test_result (fst run) = test_result (fst r)
  /\ snd run
     = match c, snd r with
       | Return _, Return _ => Return (failed (test_result (fst r)) =? 0)%nat
       | Return _, KeyboardInterrupt => Return false
       | Return _, Raise e => Raise e
       | Raise e, _ => Raise e
       | KeyboardInterrupt, _ => KeyboardInterrupt
       end.
Proof.
  intros r c run. subst run c r.
  unfold guarded_suite, bind, try_finally, try_except_interrupt.
  destruct (test_suite env st) as [st4 o4]. cbn [fst snd].
  destruct o4 as [[]|e|]; cbn -[summary];
    rewrite ?client_close_runs; cbn -[summary];
    destruct (on_close env (history st4)) as [[]|e'|] eqn:Ec;
    cbn -[summary]; try rewrite Ec; auto.
  destruct (summary_runs (entered (Close (Return tt)) st4)) as (Ht & Hh & Hr).
  unfold entered in Ht, Hh, Hr. cbn [history test_result] in Ht, Hh, Hr.
  rewrite Ht, Hh, Hr. auto.
Qed.

(** [run_tests] up to the connection. *)
Lemma run_tests_runs :
  exists st0 : State,
    history st0 = [] /\ test_result st0 = TestResult_init
    /\ run_tests env initial_state
       = match test_connection env st0 with
         | (st1, Return true) =>
             guarded_suite env
               {| test_result := test_result st1;
                  log := ((log st1 ++ [(INFO, "✅ Connected to Pico server")])
                          ++ [(INFO, "")])%list;
                  history := history st1 |}
         | (st1, Return false) =>
             ({| test_result := test_result st1;
                 log := (log st1
                         ++ [(ERROR, "❌ Cannot connect to server. Ensure Pico server is running!")])%list;
                 history := history st1 |}, Return false)
         | (st1, Raise e) => (st1, Raise e)
         | (st1, KeyboardInterrupt) => (st1, KeyboardInterrupt)
         end.
Proof.
  eexists. split; [|split]; cycle 2.
  - unfold run_tests.
    cbv beta iota delta [bind log_info update_result].
    lazymatch goal with
    | |- ?L = ?R =>
        lazymatch L with
        | context [test_connection env ?S] =>
            lazymatch R with
            | context [test_connection env ?E] => unify E S
            end
        end
    end.
    destruct (test_connection env _) as [st1 [[|]|e|]]; reflexivity.
  - reflexivity.
  - reflexivity.
Qed.

Lemma run_tests_reaches_suite :
  on_connect env [] = Return true ->
  exists st3 : State,
    history st3 = [Connect (Return true)]
    /\ test_result st3 = TestResult_init
    /\ run_tests env initial_state = guarded_suite env st3.
Proof.
  intros Hc. destruct run_tests_runs as (st0 & Hh0 & Ht0 & E).
  rewrite E, test_connection_runs, Hh0, Hc.
  eexists. split; [|split; [|reflexivity]]; cbn.
  - rewrite Hh0. reflexivity.
  - exact Ht0.
Qed.

Lemma run_tests_not_connected (o : Outcome bool) :
  on_connect env [] = o ->
  o <> Return true ->
  let run := run_tests env initial_state in
  history (fst run) = [Connect o]
  /\ test_result (fst run) = TestResult_init
  /\ snd run = match o with
               | KeyboardInterrupt => KeyboardInterrupt
               | _ => Return false
               end.
Proof.
  intros Hc Ho run. subst run.
  destruct run_tests_runs as (st0 & Hh0 & Ht0 & E).
  rewrite E, test_connection_runs, Hh0, Hc.
  destruct o as [[|]|e|]; [now destruct Ho| | |]; cbn;
    rewrite ?Hh0, ?Ht0; repeat split.
Qed.

(** The events of the suite, once connected. *)
Lemma run_tests_history :
  on_connect env [] = Return true ->
  let run := run_tests env initial_state in
  exists (evs : list Event) (c : Outcome unit),
    history (fst run) = (Connect (Return true) :: evs ++ [Close c])%list
    /\ if forallb quiet evs
       then suite_shape evs (recorded (fst run))
            /\ snd run = match c with
                         | Return _ =>
                             Return (failed (test_result (fst run)) =? 0)%nat
                         | Raise e => Raise e
                         | KeyboardInterrupt => KeyboardInterrupt
                         end
       else forall b, snd run <> Return b \/ b = false.
Proof.
  intros Hc run.
  destruct (run_tests_reaches_suite Hc) as (st3 & Hh3 & Ht3 & E).
  subst run. rewrite E. clear E.
  destruct (guarded_suite_runs st3) as (Hh & Ht & Hr).
  set (run := guarded_suite env st3) in *.
  destruct (orderly_suite st3) as (evs & Hevs & Hq).
  exists evs, (on_close env (history (fst (test_suite env st3)))).
  split; [rewrite Hh, Hevs, Hh3; reflexivity|].
  destruct (forallb quiet evs).
  - destruct Hq as ([] & n & Hs & Hn & Hshape). split.
    + replace (recorded (fst run)) with n; [exact Hshape|].
      unfold recorded in *. rewrite Ht, Hn, Ht3. reflexivity.
    + rewrite Hr, Hs, Ht.
      now destruct (on_close env _) as [[]|e|].
  - intros b. rewrite Hr.
    destruct (snd (test_suite env st3)) as [[]|e|] eqn:Es.
    + now destruct (Hq tt).
    + left. destruct (on_close env _) as [[]|e'|]; discriminate.
    + destruct (on_close env _) as [[]|e'|].
      * destruct b; [left; discriminate|now right].
      * left; discriminate.
      * left; discriminate.
Qed.

End Sequence_facts.

(** ** The run as a whole *)

Section Run_properties.

Import ClientTester.

Lemma main_runs (env : Environment) :
  history (fst (main env)) = history (fst (run_tests env initial_state))
  /\ test_result (fst (main env))
     = test_result (fst (run_tests env initial_state))
  /\ snd (main env)
     = match snd (run_tests env initial_state) with
       | Return ok => SysExit (if ok then 0 else 1)
       | Raise _ => SysExit 1
       | KeyboardInterrupt => Interrupted
       end.
Proof.
  unfold main.
  destruct (run_tests env initial_state) as [st [ok|e|]]; repeat split.
Qed.

Lemma forallb_quiet_run (evs : list Event) (c : Outcome unit) :
  forallb quiet (Connect (Return true) :: evs ++ [Close c])
  = forallb quiet evs && quiet (Close c).
Proof.
  simpl. rewrite forallb_app. simpl. now rewrite andb_true_r.
Qed.

(** C5, the claim as stated fails: when the single-read case records a
    failure, the single-write case is not run, although nothing disturbs
    the run. *)
Lemma single_write_skipped_counterexample :
  ~ (forall env : Environment,
        on_connect env [] = Return true ->
        forallb quiet (history (fst (run_tests env initial_state))) = true ->
        exists v : Z,
          In (write_register SERVER_REGISTER_START v SLAVE_ID)
             (requests (history (fst (run_tests env initial_state))))).
Proof.
  intros H.
  destruct (H (scripted (Return true)
                        [Return (ErrorResponse "Exception Response(131, 3, IllegalAddress)");
                         Return (RegistersResponse [1000; 1001; 1002; 1003; 1004])])
              eq_refl) as (v & Hv).
  - vm_compute. reflexivity.
  - vm_compute in Hv.
    repeat match goal with
           | H : _ \/ _ |- _ => destruct H
           end; try discriminate; contradiction.
Qed.

(** C5, amended.  Once the connection is made and as long as no
    [KeyboardInterrupt] (and nothing raised by [time.sleep] or [close])
    cuts the run short, what a case records does not keep a later case
    from running: the single read, the multiple read, the multiple write,
    the write of the write-read-verify case, both boundary reads and the
    negative test are always sent, in this order; the single-write case
    is run exactly when the single-read case handed on a value (it is
    skipped when the single read failed); the write-read-verify case
    decides by itself whether it reads back; every case run records its
    outcome, one for each request it sent.  When the connection is not
    made, no case is run and nothing is recorded. *)
Theorem cases_run_independently (env : Environment) :
  let final := fst (run_tests env initial_state) in
  (on_connect env [] = Return true ->
   forallb quiet (history final) = true ->
   exists evs : list Event,
     history final = (Connect (Return true) :: evs ++ [Close (Return tt)])%list
     /\ suite_shape evs (recorded final))
  /\ (forall o : Outcome bool,
         on_connect env [] = o ->
         o <> Return true ->
         requests (history final) = [] /\ recorded final = 0%nat).
Proof.
  intros final. split.
  - intros Hc Hq.
    destruct (run_tests_history env Hc) as (evs & c & Hh & Hrun).
    fold final in Hh, Hrun.
    rewrite Hh, forallb_quiet_run in Hq.
    apply andb_true_iff in Hq. destruct Hq as (Hq1 & Hq2).
    rewrite Hq1 in Hrun. destruct Hrun as (Hshape & _).
    exists evs. split; [|exact Hshape].
    rewrite Hh. destruct c as [[]|e|]; [reflexivity|discriminate|discriminate].
  - intros o Hc Ho.
    destruct (run_tests_not_connected env o Hc Ho) as (Hh & Ht & _).
    fold final in Hh, Ht. unfold recorded. rewrite Hh, Ht. split; reflexivity.
Qed.

(** C6, the claim as stated fails: a run that connected and recorded no
    failure, and that a [KeyboardInterrupt] cut short, ends with exit
    code 1. *)
Lemma exit_code_counterexample :
  ~ (forall env : Environment,
        snd (main env) = SysExit 0 <->
        on_connect env [] = Return true
        /\ failed (test_result (fst (main env))) = 0%nat).
Proof.
  intros H.
  destruct (H (scripted (Return true) [KeyboardInterrupt])) as (_ & H2).
  assert (E : snd (main (scripted (Return true) [KeyboardInterrupt]))
              = SysExit 0)
    by (apply H2; split; vm_compute; reflexivity).
  vm_compute in E. discriminate E.
Qed.

(** C6, amended.  The process exits with code 0 if and only if the
    connection was made, no [KeyboardInterrupt] (and nothing raised by
    [time.sleep] or [close]) cut the run short, and the recorded failed
    count is 0; so it does not exit with code 0 when a case run recorded a
    failure, when the connection could not be made or when the run was
    interrupted. *)
Theorem exit_code_zero_iff (env : Environment) :
  let final := fst (main env) in
  snd (main env) = SysExit 0 <->
  on_connect env [] = Return true
  /\ forallb quiet (history final) = true
  /\ failed (test_result final) = 0%nat.
Proof.
  intros final. subst final.
  destruct (main_runs env) as (Hh & Ht & Hm). rewrite Hh, Ht, Hm.
  clear Hh Ht Hm.
  destruct (on_connect env []) as [[|]|e|] eqn:Hc.
  - destruct (run_tests_history env Hc) as (evs & c & Hhist & Hrun).
    set (run := run_tests env initial_state) in *. clearbody run.
    rewrite Hhist, forallb_quiet_run.
    destruct (forallb quiet evs).
    + destruct Hrun as (_ & Hr). rewrite Hr.
      destruct c as [[]|e|]; cbn [quiet andb].
      * destruct (failed _ =? 0)%nat eqn:Ef.
        -- apply Nat.eqb_eq in Ef. tauto.
        -- apply Nat.eqb_neq in Ef. split; [discriminate|tauto].
      * split; [discriminate|]. intros (_ & Hf & _). discriminate.
      * split; [discriminate|]. intros (_ & Hf & _). discriminate.
    + cbn [andb]. split; [|intros (_ & Hf & _); discriminate].
      destruct (snd run) as [[|]|e|] eqn:Er; try discriminate.
      destruct (Hrun true) as [Hn|Hn]; [now destruct Hn|discriminate].
  - destruct (run_tests_not_connected env _ Hc) as (_ & _ & Hr);
      [discriminate|].
    set (run := run_tests env initial_state) in *. clearbody run.
    rewrite Hr. split; [discriminate|]. intros (Hf & _). discriminate.
  - destruct (run_tests_not_connected env _ Hc) as (_ & _ & Hr);
      [discriminate|].
    set (run := run_tests env initial_state) in *. clearbody run.
    rewrite Hr. split; [discriminate|]. intros (Hf & _). discriminate.
  - destruct (run_tests_not_connected env _ Hc) as (_ & _ & Hr);
      [discriminate|].
    set (run := run_tests env initial_state) in *. clearbody run.
    rewrite Hr. split; [discriminate|]. intros (Hf & _). discriminate.
Qed.

End Run_properties.

Section Case_witnesses.

Import ClientTester.

Lemma invalid_address_inverted_witness :
  pass_recorded initial_state
    (fst (test_invalid_address
            (scripted (Return true) [Return (ErrorResponse "IllegalAddress")])
            initial_state))
  /\ pass_recorded initial_state
       (fst (test_invalid_address
               (scripted (Return true) [Raise "No response received"])
               initial_state))
  /\ failure_recorded "Invalid Address Test: Should have failed but got: [7]"
       initial_state
       (fst (test_invalid_address
               (scripted (Return true) [Return (RegistersResponse [7])])
               initial_state)).
Proof.
  split; [|split].
  - apply (invalid_address_inverted
             (scripted (Return true) [Return (ErrorResponse "IllegalAddress")])
             initial_state) with (text := "IllegalAddress").
    reflexivity.
  - apply (invalid_address_inverted
             (scripted (Return true) [Raise "No response received"])
             initial_state) with (e := "No response received").
    reflexivity.
  - apply (invalid_address_inverted
             (scripted (Return true) [Return (RegistersResponse [7])])
             initial_state) with (regs := [7]).
    reflexivity.
Defined.

Lemma write_read_verify_outcomes_witness :
  failure_recorded "Write-Read-Verify: Value mismatch: wrote 9999, read 1234"
    (fst (test_single_register_write
            (scripted (Return true)
                      [Return (RegistersResponse []);
                       Return (RegistersResponse [1234])])
            102 9999 initial_state))
    (fst (test_write_read_verify
            (scripted (Return true)
                      [Return (RegistersResponse []);
                       Return (RegistersResponse [1234])])
            initial_state))
  /\ pass_recorded
       (fst (test_single_register_write
               (scripted (Return true)
                         [Return (RegistersResponse []);
                          Return (RegistersResponse [9999])])
               102 9999 initial_state))
       (fst (test_write_read_verify
               (scripted (Return true)
                         [Return (RegistersResponse []);
                          Return (RegistersResponse [9999])])
               initial_state)).
Proof.
  split.
  - destruct (write_read_verify_outcomes
                (scripted (Return true)
                          [Return (RegistersResponse []);
                           Return (RegistersResponse [1234])])
                initial_state [] eq_refl eq_refl) as (_ & _ & H & _).
    apply (H 1234 []); [reflexivity|discriminate].
  - destruct (write_read_verify_outcomes
                (scripted (Return true)
                          [Return (RegistersResponse []);
                           Return (RegistersResponse [9999])])
                initial_state [] eq_refl eq_refl) as (_ & H & _).
    apply (H 9999 []); reflexivity.
Defined.

Lemma cases_run_independently_witness :
  (exists evs : list Event,
      history (fst (run_tests
                      (scripted (Return true)
                                [Return (ErrorResponse "IllegalAddress")])
                      initial_state))
      = (Connect (Return true) :: evs ++ [Close (Return tt)])%list
      /\ suite_shape evs
           (recorded (fst (run_tests
                             (scripted (Return true)
                                       [Return (ErrorResponse "IllegalAddress")])
                             initial_state))))
  /\ requests (history (fst (run_tests (scripted (Return false) [])
                                       initial_state))) = []
  /\ recorded (fst (run_tests (scripted (Return false) []) initial_state))
     = 0%nat.
Proof.
  split.
  - apply (proj1 (cases_run_independently
                    (scripted (Return true)
                              [Return (ErrorResponse "IllegalAddress")]))).
    + reflexivity.
    + vm_compute. reflexivity.
  - apply (proj2 (cases_run_independently (scripted (Return false) []))
                 (Return false)).
    + reflexivity.
    + discriminate.
Defined.

Lemma exit_code_zero_iff_witness :
  snd (main (scripted (Return true)
                      [Return (RegistersResponse [1000]);
                       Return (RegistersResponse [1000; 1001; 1002; 1003; 1004]);
                       Return (RegistersResponse []);
                       Return (RegistersResponse []);
                       Return (RegistersResponse []);
                       Return (RegistersResponse [9999]);
                       Return (RegistersResponse [1100]);
                       Return (RegistersResponse [1009]);
                       Return (ErrorResponse "IllegalAddress")]))
  = SysExit 0.
Proof.
  apply (proj2 (exit_code_zero_iff _)).
  split; [reflexivity|]. split; vm_compute; reflexivity.
Defined.

End Case_witnesses.

(** ** Further properties of the cases, the run and the logging block *)

Section More_case_properties.
Import ClientTester.
Variable env : Environment.

Lemma guarded_never_raises {A} (rq : Request) (k : Response -> M A)
      (handler : string -> M A) :
  (forall r st e, snd (try_except (k r) handler st) <> Raise e) ->
  (forall e' st e, snd (handler e' st) <> Raise e) ->
  forall st e,
    snd (try_except (bind (client_request env rq) k) handler st) <> Raise e.
Proof.
  intros Hk Hh st e. rewrite guarded_request.
  destruct (on_request env (history st) rq) as [r|e'|].
  - apply Hk.
  - apply Hh.
  - discriminate.
Qed.

Lemma bind_never_raises {A B} (m : M A) (f : A -> M B) :
  (forall st e, snd (m st) <> Raise e) ->
  (forall a st e, snd (f a st) <> Raise e) ->
  forall st e, snd (bind m f st) <> Raise e.
Proof.
  intros Hm Hf st e. unfold bind.
  specialize (Hm st). destruct (m st) as [st1 [a|e1|]]; simpl in *.
  - apply Hf.
  - now destruct (Hm e1).
  - discriminate.
Qed.

Ltac calm :=
  intros; unfold try_except, bind; simpl; try discriminate.

(** X1.  No case lets an exception escape: whatever the client answers
    or raises, the connection test, the single and multiple reads, the
    single and multiple writes, the boundary case and the negative test
    never end by raising an [Exception]; they return, or are cut short by
    a [KeyboardInterrupt]. *)
Theorem cases_never_raise (st : State) (e : string)
        (address value start_addr count : Z) (values : list Z) :
  snd (test_connection env st) <> Raise e
  /\ snd (test_single_register_read env st) <> Raise e
  /\ snd (test_single_register_write env address value st) <> Raise e
  /\ snd (test_multiple_register_read env start_addr count st) <> Raise e
  /\ snd (test_multiple_register_write env start_addr values st) <> Raise e
  /\ snd (test_boundary_addresses env st) <> Raise e
  /\ snd (test_invalid_address env st) <> Raise e.
Proof.
  repeat split.
  - rewrite test_connection_runs.
    destruct (on_connect env (history st)) as [b|e'|]; discriminate.
  - apply guarded_never_raises; [intros [[|v l]|text] st0 e0; calm|calm].
  - apply guarded_never_raises; [intros [l|text] st0 e0; calm|calm].
  - apply guarded_never_raises; [intros [l|text] st0 e0; calm|calm].
  - apply guarded_never_raises; [intros [l|text] st0 e0; calm|calm].
  - apply bind_never_raises; [|intros _];
      apply guarded_never_raises;
      solve [intros [[|v l]|text] st0 e0; calm | calm].
  - apply guarded_never_raises; [intros [l|text] st0 e0; calm|calm].
Qed.

(** X2.  The single-read case sends one request, for one register at
    address 100.  Unless interrupted it returns the first register of a
    normal response, having recorded a pass, and [None] otherwise, having
    recorded a failure: "Modbus error" for an error response, "Exception"
    for a raised exception and also for a normal response that carries no
    register, where [registers[0]] fails with "list index out of range". *)
Theorem single_read_contract (st : State) :
  let rq := read_holding_registers 100 1 1 in
  let o := on_request env (history st) rq in
  let r := test_single_register_read env st in
  history (fst r) = (history st ++ [Exchange rq o])%list
  /\ (o <> KeyboardInterrupt -> snd r = Return (value_read o))
  /\ (forall v, value_read o = Some v -> pass_recorded st (fst r))
  /\ (o = Return (RegistersResponse []) ->
      failure_recorded
        "Single Register Read: Exception: list index out of range" st (fst r))
  /\ (forall text, o = Return (ErrorResponse text) ->
      failure_recorded ("Single Register Read: Modbus error: " ++ text)
                       st (fst r))
  /\ (forall e, o = Raise e ->
      failure_recorded ("Single Register Read: Exception: " ++ e) st (fst r)).
Proof.
  intros rq o r. subst r. unfold test_single_register_read.
  rewrite guarded_request.
  change (read_holding_registers SERVER_REGISTER_START 1 SLAVE_ID) with rq.
  fold o.
  destruct o as [[[|v l]|text]|e|]; simpl;
    repeat split; intros; try discriminate; try congruence;
    match goal with
    | H : Return _ = Return _ |- _ => injection H as <-; reflexivity
    | H : Raise _ = Raise _ |- _ => injection H as <-; reflexivity
    | _ => idtac
    end.
Qed.

Ltac settle_contract :=
  simpl; repeat split; intros; try discriminate; try congruence;
  match goal with
  | H : Return _ = Return _ |- _ => injection H as <-; reflexivity
  | H : Raise _ = Raise _ |- _ => injection H as <-; reflexivity
  | _ => idtac
  end.

(** X3.  The single-write and the multiple-write cases send one request
    each, with the address and the value or values they are given.  Unless
    interrupted they return [True] exactly for a normal response, having
    recorded a pass, and [False] for an error response or a raised
    exception, having recorded the failure under their own name. *)
Theorem register_writes_contract
        (st : State) (address value : Z) (values : list Z) :
  (let rq := write_register address value 1 in
   let o := on_request env (history st) rq in
   let r := test_single_register_write env address value st in
   history (fst r) = (history st ++ [Exchange rq o])%list
   /\ (o <> KeyboardInterrupt -> snd r = Return (accepted o))
   /\ (accepted o = true -> pass_recorded st (fst r))
   /\ (forall text, o = Return (ErrorResponse text) ->
       failure_recorded ("Single Register Write: Modbus error: " ++ text)
                        st (fst r))
   /\ (forall e, o = Raise e ->
       failure_recorded ("Single Register Write: Exception: " ++ e)
                        st (fst r)))
  /\ (let rq := write_registers address values 1 in
      let o := on_request env (history st) rq in
      let r := test_multiple_register_write env address values st in
      history (fst r) = (history st ++ [Exchange rq o])%list
      /\ (o <> KeyboardInterrupt -> snd r = Return (accepted o))
      /\ (accepted o = true -> pass_recorded st (fst r))
      /\ (forall text, o = Return (ErrorResponse text) ->
          failure_recorded ("Multiple Register Write: Modbus error: " ++ text)
                           st (fst r))
      /\ (forall e, o = Raise e ->
          failure_recorded ("Multiple Register Write: Exception: " ++ e)
                           st (fst r))).
Proof.
  split.
  - intros rq o r. subst r. unfold test_single_register_write.
    rewrite guarded_request.
    change (write_register address value SLAVE_ID) with rq. fold o.
    destruct o as [[l|text]|e|]; settle_contract.
  - intros rq o r. subst r. unfold test_multiple_register_write.
    rewrite guarded_request.
    change (write_registers address values SLAVE_ID) with rq. fold o.
    destruct o as [[l|text]|e|]; settle_contract.
Qed.

(** X4.  The multiple-read case does not check how many registers come
    back: on a normal response it returns the list as it is and records a
    pass, whatever the count asked for, also for an empty list. *)
Theorem multiple_read_takes_any_length
        (st : State) (start_addr count : Z) (regs : list Z) :
  let rq := read_holding_registers start_addr count 1 in
  let r := test_multiple_register_read env start_addr count st in
  on_request env (history st) rq = Return (RegistersResponse regs) ->
  snd r = Return (Some regs)
  /\ pass_recorded st (fst r)
  /\ log (fst r)
     = (log st
        ++ [(INFO, ("✅ Multiple Register Read - Addr " ++ str_int start_addr
                    ++ "-" ++ str_int (start_addr + count - 1) ++ ": "
                    ++ str_list regs)%string)])%list.
Proof.
  intros rq r Ho. subst r. unfold test_multiple_register_read.
  rewrite guarded_request.
  change (read_holding_registers start_addr count SLAVE_ID) with rq.
  rewrite Ho. repeat split.
Qed.

(** X5.  When the write of the write-read-verify case gets an error
    response or raises, the case returns at once: it neither sleeps nor
    reads back, and the one failure it records goes under the name
    "Single Register Write", not "Write-Read-Verify". *)
Theorem verify_stops_on_failed_write (st : State) :
  let rq := write_register 102 9999 1 in
  let o := on_request env (history st) rq in
  let r := test_write_read_verify env st in
  (forall text, o = Return (ErrorResponse text) ->
   snd r = Return tt
   /\ history (fst r) = (history st ++ [Exchange rq o])%list
   /\ failure_recorded ("Single Register Write: Modbus error: " ++ text)
                       st (fst r))
  /\ (forall e, o = Raise e ->
      snd r = Return tt
      /\ history (fst r) = (history st ++ [Exchange rq o])%list
      /\ failure_recorded ("Single Register Write: Exception: " ++ e)
                          st (fst r)).
Proof.
  intros rq o r. subst r. unfold test_write_read_verify.
  change (SERVER_REGISTER_START + 2) with 102.
  split.
  - intros text Ho.
    erewrite bind_Return.
    2:{ unfold test_single_register_write. rewrite guarded_request.
        change (write_register 102 9999 SLAVE_ID) with rq. fold o.
        rewrite Ho. reflexivity. }
    rewrite Ho. repeat split.
  - intros e Ho.
    erewrite bind_Return.
    2:{ unfold test_single_register_write. rewrite guarded_request.
        change (write_register 102 9999 SLAVE_ID) with rq. fold o.
        rewrite Ho. reflexivity. }
    rewrite Ho. repeat split.
Qed.

(** X6.  When the read-back of the write-read-verify case is a normal
    response that carries no register, the case does not crash: after the
    pass of its write it records the failure "Write-Read-Verify: Exception:
    list index out of range" and returns. *)
Theorem verify_empty_read_back (st : State) (ack : list Z) :
  let write_rq := write_register 102 9999 1 in
  let read_rq := read_holding_registers 102 1 1 in
  let h1 := (history st
             ++ [Exchange write_rq (Return (RegistersResponse ack))])%list in
  let h2 := (h1 ++ [Sleep 100 (Return tt)])%list in
  let r := test_write_read_verify env st in
  on_request env (history st) write_rq = Return (RegistersResponse ack) ->
  on_sleep env h1 100 = Return tt ->
  on_request env h2 read_rq = Return (RegistersResponse []) ->
  snd r = Return tt
  /\ passed (test_result (fst r)) = (passed (test_result st) + 1)%nat
  /\ failed (test_result (fst r)) = (failed (test_result st) + 1)%nat
  /\ errors (test_result (fst r))
     = (errors (test_result st)
        ++ ["Write-Read-Verify: Exception: list index out of range"])%list.
Proof.
  intros write_rq read_rq h1 h2 r Hw Hs Hr. subst r.
  assert (E1 : test_single_register_write env 102 9999 st
               = ({| test_result :=
                       {| passed := passed (test_result st) + 1;
                          failed := failed (test_result st);
                          errors := errors (test_result st) |};
                     log := (log st
                             ++ [(INFO, "✅ Single Register Write - Addr 102: 9999")])%list;
                     history := h1 |}, Return true)).
  { unfold test_single_register_write. rewrite guarded_request.
    change (write_register 102 9999 SLAVE_ID) with write_rq.
    rewrite Hw. reflexivity. }
  unfold test_write_read_verify.
  change (SERVER_REGISTER_START + 2) with 102.
  erewrite bind_Return by exact E1. cbn [negb].
  rewrite bind_sleep. cbn [history]. rewrite Hs.
  rewrite guarded_request. unfold entered. cbn [history test_result log].
  fold h2. change (read_holding_registers 102 1 SLAVE_ID) with read_rq.
  rewrite Hr. repeat split.
Qed.

Lemma guarded_settles (rq : Request) (k : Response -> M unit)
      (h : string -> M unit) (st : State) :
  (forall a s, history (fst (try_except (k a) h s)) = history s
               /\ snd (try_except (k a) h s) = Return tt
               /\ recorded (fst (try_except (k a) h s)) = (recorded s + 1)%nat) ->
  (forall e s, history (fst (h e s)) = history s
               /\ snd (h e s) = Return tt
               /\ recorded (fst (h e s)) = (recorded s + 1)%nat) ->
  let o := on_request env (history st) rq in
  let r := try_except (bind (client_request env rq) k) h st in
  history (fst r) = (history st ++ [Exchange rq o])%list
  /\ (o <> KeyboardInterrupt ->
      snd r = Return tt /\ recorded (fst r) = (recorded st + 1)%nat).
Proof.
  intros Hk Hh o r. subst r. rewrite guarded_request. fold o.
  destruct o as [a|e|].
  - destruct (Hk a (entered (Exchange rq (Return a)) st)) as (Ha & Hb & Hc).
    rewrite Ha, Hb, Hc. repeat split.
  - destruct (Hh e (entered (Exchange rq (Raise e)) st)) as (Ha & Hb & Hc).
    rewrite Ha, Hb, Hc. repeat split.
  - split; [reflexivity|]. intros H. now destruct H.
Qed.

Ltac one_outcome :=
  intros; repeat split; unfold recorded; simpl; lia.

(** X7.  The boundary case reads the first register, 100, and then the
    last, 109 = start + count - 1: unless a [KeyboardInterrupt] cuts the
    first read short, the second read is sent whatever the first one
    answered or raised, and unless the second is interrupted the case
    returns having recorded exactly two outcomes. *)
Theorem boundary_reads_both (st : State) :
  let first := read_holding_registers 100 1 1 in
  let last := read_holding_registers 109 1 1 in
  let o1 := on_request env (history st) first in
  let o2 := on_request env (history st ++ [Exchange first o1]) last in
  let r := test_boundary_addresses env st in
  o1 <> KeyboardInterrupt ->
  history (fst r) = (history st ++ [Exchange first o1; Exchange last o2])%list
  /\ (o2 <> KeyboardInterrupt ->
      snd r = Return tt /\ recorded (fst r) = (recorded st + 2)%nat).
Proof.
  intros first last o1 o2 r H1. subst r.
  unfold test_boundary_addresses.
  change (read_holding_registers SERVER_REGISTER_START 1 SLAVE_ID) with first.
  change (SERVER_REGISTER_START + SERVER_REGISTER_COUNT - 1) with 109.
  change (read_holding_registers 109 1 SLAVE_ID) with last.
  lazymatch goal with
  | |- context [bind (try_except (bind (client_request env first) ?k1) ?h1)
                     (fun _ => try_except (bind (client_request env last) ?k2) ?h2)] =>
      pose proof (guarded_settles first k1 h1 st) as S1;
      pose proof (fun s => guarded_settles last k2 h2 s) as S2
  end.
  destruct S1 as (Hh1 & Hr1);
    [intros [[|v l]|text] s; one_outcome | one_outcome |].
  fold o1 in Hh1, Hr1. destruct (Hr1 H1) as (Hret1 & Hn1). clear Hr1.
  destruct (try_except _ _ st) as [st1 x1] eqn:E1 in Hh1, Hret1, Hn1.
  cbn [fst snd] in Hh1, Hret1, Hn1. subst x1.
  erewrite bind_Return by exact E1.
  destruct (S2 st1) as (Hh2 & Hr2);
    [intros [[|v l]|text] s; one_outcome | one_outcome |].
  rewrite Hh1 in Hh2, Hr2. fold o2 in Hh2, Hr2.
  split.
  - rewrite Hh2, <- app_assoc. reflexivity.
  - intros H2. destruct (Hr2 H2) as (Hret2 & Hn2).
    split; [exact Hret2|]. rewrite Hn2, Hn1. lia.
Qed.



Lemma kts_silent {A} (m : M A) :
  (forall st, history (fst (m st)) = history st) -> keeps_to_suite m.
Proof.
  intros H st. exists []. rewrite app_nil_r. auto.
Qed.

Lemma kts_bind {A B} (m : M A) (f : A -> M B) :
  keeps_to_suite m -> (forall a, keeps_to_suite (f a)) ->
  keeps_to_suite (bind m f).
Proof.
  intros Hm Hf st. unfold bind. destruct (Hm st) as (evs1 & H1 & Q1).
  destruct (m st) as [st1 [a|e|]]; cbn [fst] in *.
  - destruct (Hf a st1) as (evs2 & H2 & Q2).
    exists (evs1 ++ evs2)%list. rewrite H2, H1, app_assoc, forallb_app, Q1, Q2.
    auto.
  - exists evs1. auto.
  - exists evs1. auto.
Qed.

Lemma kts_try_except {A} (body : M A) (handler : string -> M A) :
  keeps_to_suite body -> (forall e, keeps_to_suite (handler e)) ->
  keeps_to_suite (try_except body handler).
Proof.
  intros Hm Hf st. unfold try_except. destruct (Hm st) as (evs1 & H1 & Q1).
  destruct (body st) as [st1 [a|e|]]; cbn [fst] in *.
  - exists evs1. auto.
  - destruct (Hf e st1) as (evs2 & H2 & Q2).
    exists (evs1 ++ evs2)%list. rewrite H2, H1, app_assoc, forallb_app, Q1, Q2.
    auto.
  - exists evs1. auto.
Qed.

Lemma kts_request (rq : Request) : keeps_to_suite (client_request env rq).
Proof.
  intros st. rewrite client_request_runs.
  exists [Exchange rq (on_request env (history st) rq)]. auto.
Qed.

Lemma kts_sleep (ms : Z) : keeps_to_suite (time_sleep env ms).
Proof.
  intros st. rewrite time_sleep_runs.
  exists [Sleep ms (on_sleep env (history st) ms)]. auto.
Qed.

Lemma kts_registers (r : Response) : keeps_to_suite (registers r).
Proof. destruct r; apply kts_silent; reflexivity. Qed.

Lemma kts_index0 (l : list Z) : keeps_to_suite (index0 l).
Proof. destruct l; apply kts_silent; reflexivity. Qed.

Lemma kts_suite : keeps_to_suite (test_suite env).
Proof.
  unfold test_suite, test_single_register_read, test_multiple_register_read,
    test_single_register_write, test_multiple_register_write,
    test_write_read_verify, test_boundary_addresses, test_invalid_address,
    test_single_register_write.
  repeat first
    [ apply kts_request
    | apply kts_sleep
    | apply kts_registers
    | apply kts_index0
    | apply kts_bind; [|intros ?]
    | apply kts_try_except; [|intros ?]
    | match goal with
      | |- keeps_to_suite (if ?b then _ else _) => destruct b
      | |- keeps_to_suite (match ?x with Some _ => _ | None => _ end) =>
          destruct x
      end
    | solve [apply kts_silent; intros; reflexivity] ].
Qed.

(** X8.  In a run with no [KeyboardInterrupt], [run_tests] opens and
    closes the connection at most once.  When [connect] returned [True],
    the history is the connection, then only requests and sleeps, then one
    [close] as the last call, also when an exception escapes the suite;
    when [connect] returned [False] or raised, the history is the failed
    connection alone and [close] is never called. *)
Theorem connection_closed_once :
  let final := fst (run_tests env initial_state) in
  existsb interrupted (history final) = false ->
  match on_connect env [] with
  | Return true =>
      exists (evs : list Event) (c : Outcome unit),
        history final = (Connect (Return true) :: evs ++ [Close c])%list
        /\ forallb within_suite evs = true
        /\ c = on_close env (Connect (Return true) :: evs)
  | o => history final = [Connect o]
  end.
Proof.
  intros final _. subst final.
  destruct (on_connect env []) as [[|]|e|] eqn:Hc;
    try (apply (run_tests_not_connected env _ Hc); discriminate).
  destruct (run_tests_reaches_suite env Hc) as (st3 & Hh3 & _ & E).
  rewrite E. destruct (guarded_suite_runs env st3) as (Hh & _).
  destruct (kts_suite st3) as (evs & Hevs & Hq).
  rewrite Hh3 in Hevs.
  exists evs, (on_close env (history (fst (test_suite env st3)))).
  rewrite Hh, Hevs. auto.
Qed.

Lemma interrupted_not_quiet (h : list Event) :
  existsb interrupted h = true -> forallb quiet h = false.
Proof.
  induction h as [|ev h IH]; simpl; [discriminate|].
  intros H. apply orb_true_iff in H. destruct H as [H|H].
  - destruct ev as [[]|rq []|[]|ms []]; try discriminate; reflexivity.
  - rewrite (IH H). apply andb_false_r.
Qed.

(** X9.  Where a [KeyboardInterrupt] is caught.  Raised by [connect], or
    raised by [close] once the connection was made, it is caught neither
    by [run_tests] nor by [main] and ends the process.  Raised by a
    request or by a sleep of the suite, it is caught by [run_tests], which
    still closes the connection: when that [close] returns, the process
    exits with code 1.  Whenever the process ends through [sys.exit], the
    code is 0 or 1. *)
Theorem interrupt_caught_within_suite :
  let final := fst (main env) in
  (on_connect env [] = KeyboardInterrupt -> snd (main env) = Interrupted)
  /\ (on_connect env [] = Return true ->
      forall (h : list Event) (c : Outcome unit),
        history final = (h ++ [Close c])%list ->
        (c = KeyboardInterrupt -> snd (main env) = Interrupted)
        /\ (c = Return tt -> existsb interrupted h = true ->
            snd (main env) = SysExit 1))
  /\ (forall code, snd (main env) = SysExit code -> code = 0 \/ code = 1).
Proof.
  intros final. subst final.
  destruct (main_runs env) as (Hh & _ & Hm). rewrite Hh, Hm. clear Hh Hm.
  split; [|split].
  - intros Hc.
    destruct (run_tests_not_connected env _ Hc) as (_ & _ & Hr);
      [discriminate|]. now rewrite Hr.
  - intros Hc h c Hhist.
    destruct (run_tests_history env Hc) as (evs & c' & Hh & Hrun).
    destruct (run_tests_reaches_suite env Hc) as (st3 & _ & _ & E).
    destruct (guarded_suite_runs env st3) as (Hg & _ & Hr).
    rewrite <- E in Hg, Hr.
    set (run := run_tests env initial_state) in *. clearbody run.
    assert (Hc' : c' = c /\ (Connect (Return true) :: evs)%list = h).
    { rewrite Hh in Hhist.
      change (Connect (Return true) :: evs ++ [Close c'])%list
        with ((Connect (Return true) :: evs) ++ [Close c'])%list in Hhist.
      apply app_inj_tail in Hhist. destruct Hhist as (H1 & H2).
      injection H2 as H2. auto. }
    destruct Hc' as (-> & <-).
    assert (Hclose : on_close env (history (fst (test_suite env st3))) = c).
    { rewrite Hh in Hg.
      change (Connect (Return true) :: evs ++ [Close c])%list
        with ((Connect (Return true) :: evs) ++ [Close c])%list in Hg.
      apply app_inj_tail in Hg. destruct Hg as (_ & H2).
      injection H2 as H2. auto. }
    rewrite Hclose in Hr. split.
    + intros ->. now rewrite Hr.
    + intros -> Hq. apply interrupted_not_quiet in Hq.
      cbn [forallb quiet andb] in Hq. rewrite Hq in Hrun.
      rewrite Hr in *.
      destruct (snd (test_suite env st3)) as [[]|e|]; try reflexivity.
      destruct (failed _ =? 0)%nat; [|reflexivity].
      destruct (Hrun true) as [H|H]; [now destruct H|discriminate].
  - intros code. destruct (snd (run_tests env initial_state)) as [[|]|e|];
      intros H; inversion H; auto.
Qed.

(** X10.  In a run that connected and that nothing cut short, the number
    of outcomes recorded (the "Total tests" of the summary) is the number
    of requests sent, and it lies between 7 and 9. *)
Theorem one_outcome_per_request :
  let final := fst (run_tests env initial_state) in
  on_connect env [] = Return true ->
  forallb quiet (history final) = true ->
  recorded final = List.length (requests (history final))
  /\ (7 <= recorded final <= 9)%nat.
Proof.
  intros final Hc Hq. subst final.
  destruct (run_tests_history env Hc) as (evs & c & Hh & Hrun).
  set (run := run_tests env initial_state) in *. clearbody run.
  rewrite Hh in Hq |- *.
  rewrite forallb_quiet_run in Hq. apply andb_true_iff in Hq.
  destruct Hq as (Hq & _). rewrite Hq in Hrun.
  destruct Hrun as ((o1 & rest & rb & _ & Hreq & Hrb & Hn) & _).
  change (Connect (Return true) :: evs ++ [Close c])%list
    with ([Connect (Return true)] ++ evs ++ [Close c])%list.
  rewrite !requests_app, Hreq, Hn. cbn [requests flat_map app].
  rewrite app_nil_r.
  destruct (value_read o1), Hrb as [-> | ->]; cbn; lia.
Qed.

(** X11.  The connection test calls [connect] once and never touches the
    recorder: a failed connection is not counted as a failed test.  It
    returns [True] exactly when [connect] returned [True]; when [connect]
    returns [False] or raises, it returns [False], and what was raised is
    logged as "Connection error". *)
Theorem connection_test_contract (st : State) :
  let o := on_connect env (history st) in
  let r := test_connection env st in
  test_result (fst r) = test_result st
  /\ history (fst r) = (history st ++ [Connect o])%list
  /\ (snd r = Return true <-> o = Return true)
  /\ (o <> KeyboardInterrupt -> o <> Return true -> snd r = Return false)
  /\ (forall e, o = Raise e ->
      log (fst r)
      = (log st ++ [(ERROR, ("Connection error: " ++ e)%string)])%list).
Proof.
  intros o r. subst r. rewrite test_connection_runs. fold o.
  destruct o as [[|]|e|]; cbn; repeat split;
    intros; try discriminate; try congruence;
    try match goal with
        | H : ?x <> ?x |- _ => now destruct H
        end.
Qed.

(** X12.  When the connection was made and [close] raises an exception,
    the exception escapes [run_tests], whatever the cases recorded: [main]
    logs it as "Test runner error" in its last record and exits with
    code 1. *)
Theorem close_failure_reported (h : list Event) (e : string) :
  on_connect env [] = Return true ->
  history (fst (main env)) = (h ++ [Close (Raise e)])%list ->
  snd (main env) = SysExit 1
  /\ exists l, log (fst (main env))
               = (l ++ [(ERROR, ("Test runner error: " ++ e)%string)])%list.
Proof.
  intros Hc Hh.
  destruct (main_runs env) as (Hm & _ & _). rewrite Hm in Hh. clear Hm.
  unfold main.
  destruct (run_tests_reaches_suite env Hc) as (st3 & _ & _ & E).
  rewrite E in Hh |- *.
  destruct (guarded_suite_runs env st3) as (Hg & _ & Hr).
  rewrite Hg in Hh. apply app_inj_tail in Hh. destruct Hh as (_ & Hclose).
  injection Hclose as Hclose. rewrite Hclose in Hr.
  destruct (guarded_suite env st3) as [st5 o5]. cbn [snd] in Hr. subst o5.
  split; [reflexivity|]. exists (log st5). reflexivity.
Qed.
End More_case_properties.

Section Summary_properties.
Import ClientTester.

Lemma summary_log (st : State) :
  log (fst (summary st))
  = (log st
     ++ [(INFO, str_repeat "=" 60);
         (INFO, "TEST SUMMARY");
         (INFO, str_repeat "=" 60);
         (INFO, ("Total tests: "
                 ++ str_nat (passed (test_result st) + failed (test_result st)))%string);
         (INFO, ("Passed: " ++ str_nat (passed (test_result st)))%string);
         (INFO, ("Failed: " ++ str_nat (failed (test_result st)))%string)]
     ++ (if (0 <? failed (test_result st))%nat
         then (INFO, (newline ++ "Failures:")%string)
              :: map (fun error => (INFO, ("  - " ++ error)%string))
                     (errors (test_result st))
         else [])
     ++ [(INFO, str_repeat "=" 60)])%list.
Proof.
  unfold summary.
  unfold bind at 1. unfold get_result at 1.
  rewrite !bind_log_info.
  cbn [test_result log history].
  destruct (0 <? failed (test_result st))%nat.
  - unfold bind at 1. rewrite bind_log_info, for_each_log_info.
    cbn [test_result log history]. rewrite bind_log_info.
    cbn [ret fst log]. rewrite <- !app_assoc. reflexivity.
  - unfold bind at 1. unfold ret at 1. rewrite bind_log_info.
    cbn [ret fst log]. rewrite <- !app_assoc. reflexivity.
Qed.

Lemma filter_split_length {A} (f : A -> bool) (l : list A) :
  (List.length (filter f l) + List.length (filter (fun x => negb (f x)) l)
   = List.length l)%nat.
Proof.
  induction l as [|x l IH]; simpl; [reflexivity|].
  destruct (f x); simpl; lia.
Qed.

(** X13.  After any sequence of [success] and [failure] calls on a fresh
    recorder, [summary] logs the total as the number of calls, the passed
    and failed counts, and, exactly when there was a failure, a "Failures:"
    section with one line per failure, "  - name: reason", in call order;
    without a failure the section is left out. *)
Theorem summary_lists_failures (calls : list RecorderCall) :
  let st := fst (for_each calls recorder_call initial_state) in
  let failures := filter (fun c => negb (is_success c)) calls in
  log (fst (summary st))
  = (log st
     ++ [(INFO, str_repeat "=" 60);
         (INFO, "TEST SUMMARY");
         (INFO, str_repeat "=" 60);
         (INFO, ("Total tests: " ++ str_nat (List.length calls))%string);
         (INFO, ("Passed: "
                 ++ str_nat (List.length (filter is_success calls)))%string);
         (INFO, ("Failed: " ++ str_nat (List.length failures))%string)]
     ++ match failures with
        | [] => []
        | _ => (INFO, (newline ++ "Failures:")%string)
               :: map (fun error => (INFO, ("  - " ++ error)%string))
                      (entries calls)
        end
     ++ [(INFO, str_repeat "=" 60)])%list.
Proof.
  intros st failures. rewrite summary_log.
  destruct (recorder_from calls initial_state) as (_ & Hp & Hf & He).
  fold st in Hp, Hf, He. cbn [initial_state test_result TestResult_init
                              passed failed errors Nat.add app] in Hp, Hf, He.
  subst failures.
  rewrite Hp, Hf, He, filter_split_length.
  destruct (filter (fun c => negb (is_success c)) calls); reflexivity.
Qed.
End Summary_properties.

Section Logging_order.
Import EchoServer.
Variables Block Read Ack : Type.
Variable str_read : Read -> string.
Variable super_getValues : Block -> Z -> nat -> Block * Outcome Read.
Variable super_setValues : Block -> Z -> Values -> Block * Outcome Ack.

(** X14.  The logging block logs a write before it delegates and a read
    after: whatever the superclass does, [setValues] hands the logger
    exactly one record, also when the superclass raises, while [getValues]
    hands it one record when the superclass returns and none when it
    raises. *)
Theorem write_logged_before_delegation
        (self : Block) (log : list LogRecord)
        (address : Z) (count : nat) (values : Values) :
  (exists r : LogRecord,
      snd (fst (LoggingDataBlock.setValues super_setValues
                                           address values (self, log)))
      = (log ++ [r])%list)
  /\ match snd (super_getValues self address count) with
     | Return _ =>
         exists r : LogRecord,
           snd (fst (LoggingDataBlock.getValues str_read super_getValues
                                                address count (self, log)))
           = (log ++ [r])%list
     | _ =>
         snd (fst (LoggingDataBlock.getValues str_read super_getValues
                                              address count (self, log)))
         = log
     end.
Proof.
  unfold LoggingDataBlock.setValues, LoggingDataBlock.getValues. split.
  - destruct values; simpl;
      destruct (super_setValues self address _) as [self' o];
      eexists; reflexivity.
  - destruct (super_getValues self address count) as [self' [v|e|]]; simpl;
      [eexists|..]; reflexivity.
Qed.
End Logging_order.

Section Further_witnesses.

Import ClientTester.

Lemma single_read_contract_witness :
  failure_recorded "Single Register Read: Exception: list index out of range"
    initial_state
    (fst (test_single_register_read
            (scripted (Return true) [Return (RegistersResponse [])])
            initial_state))
  /\ snd (test_single_register_read
            (scripted (Return true) [Return (RegistersResponse [1000])])
            initial_state)
     = Return (Some 1000).
Proof.
  split.
  - destruct (single_read_contract
                (scripted (Return true) [Return (RegistersResponse [])])
                initial_state) as (_ & _ & _ & H & _).
    apply H. reflexivity.
  - destruct (single_read_contract
                (scripted (Return true) [Return (RegistersResponse [1000])])
                initial_state) as (_ & H & _).
    apply H. discriminate.
Defined.

Lemma register_writes_contract_witness :
  snd (test_single_register_write
         (scripted (Return true) [Return (RegistersResponse [])])
         100 1100 initial_state)
  = Return true
  /\ failure_recorded "Multiple Register Write: Exception: timeout"
       initial_state
       (fst (test_multiple_register_write
               (scripted (Return true) [Raise "timeout"])
               103 [2000; 2001; 2002] initial_state)).
Proof.
  split.
  - apply (proj1 (register_writes_contract
                    (scripted (Return true) [Return (RegistersResponse [])])
                    initial_state 100 1100 [])).
    discriminate.
  - apply (proj2 (register_writes_contract
                    (scripted (Return true) [Raise "timeout"])
                    initial_state 103 0 [2000; 2001; 2002]))
      with (e := "timeout").
    reflexivity.
Defined.

Lemma multiple_read_takes_any_length_witness :
  snd (test_multiple_register_read
         (scripted (Return true) [Return (RegistersResponse [])])
         100 5 initial_state)
  = Return (Some []).
Proof.
  apply (multiple_read_takes_any_length
           (scripted (Return true) [Return (RegistersResponse [])])
           initial_state 100 5 []).
  reflexivity.
Defined.

Lemma verify_stops_on_failed_write_witness :
  history (fst (test_write_read_verify
                  (scripted (Return true) [Return (ErrorResponse "IllegalAddress")])
                  initial_state))
  = [Exchange (write_register 102 9999 1)
              (Return (ErrorResponse "IllegalAddress"))].
Proof.
  apply (proj1 (verify_stops_on_failed_write
                  (scripted (Return true)
                            [Return (ErrorResponse "IllegalAddress")])
                  initial_state) "IllegalAddress").
  reflexivity.
Defined.

Lemma verify_empty_read_back_witness :
  errors (test_result
            (fst (test_write_read_verify
                    (scripted (Return true)
                              [Return (RegistersResponse []);
                               Return (RegistersResponse [])])
                    initial_state)))
  = ["Write-Read-Verify: Exception: list index out of range"].
Proof.
  apply (verify_empty_read_back
           (scripted (Return true)
                     [Return (RegistersResponse []);
                      Return (RegistersResponse [])])
           initial_state []); reflexivity.
Defined.

Lemma boundary_reads_both_witness :
  snd (test_boundary_addresses
         (scripted (Return true)
                   [Raise "timeout"; Return (RegistersResponse [1009])])
         initial_state)
  = Return tt
  /\ recorded (fst (test_boundary_addresses
                      (scripted (Return true)
                                [Raise "timeout";
                                 Return (RegistersResponse [1009])])
                      initial_state))
     = 2%nat.
Proof.
  apply (boundary_reads_both
           (scripted (Return true)
                     [Raise "timeout"; Return (RegistersResponse [1009])])
           initial_state); discriminate.
Defined.

Lemma one_outcome_per_request_witness :
  recorded (fst (run_tests
                   (scripted (Return true) [Return (RegistersResponse [1000])])
                   initial_state))
  = List.length
      (requests (history (fst (run_tests
                                 (scripted (Return true)
                                           [Return (RegistersResponse [1000])])
                                 initial_state))))
  /\ (7 <= recorded (fst (run_tests
                            (scripted (Return true)
                                      [Return (RegistersResponse [1000%Z])])
                            initial_state)) <= 9)%nat.
Proof.
  apply (one_outcome_per_request
           (scripted (Return true) [Return (RegistersResponse [1000])])).
  - reflexivity.
  - vm_compute. reflexivity.
Defined.

Lemma connection_test_contract_witness :
  snd (test_connection (scripted (Raise "refused") []) initial_state)
  = Return false
  /\ log (fst (test_connection (scripted (Raise "refused") []) initial_state))
     = [(ERROR, "Connection error: refused")].
Proof.
  split.
  - apply (connection_test_contract (scripted (Raise "refused") [])
                                    initial_state); discriminate.
  - apply (connection_test_contract (scripted (Raise "refused") [])
                                    initial_state) with (e := "refused").
    reflexivity.
Defined.

Lemma close_failure_reported_witness :
  snd (main (closing (Raise "socket closed") (scripted (Return true) [])))
  = SysExit 1
  /\ exists l,
       log (fst (main (closing (Raise "socket closed")
                               (scripted (Return true) []))))
       = (l ++ [(ERROR, "Test runner error: socket closed")])%list.
Proof.
  apply (close_failure_reported
           (closing (Raise "socket closed") (scripted (Return true) []))
           (removelast
              (history
                 (fst (main (closing (Raise "socket closed")
                                     (scripted (Return true) []))))))
           "socket closed").
  - reflexivity.
  - vm_compute. reflexivity.
Defined.

Lemma connection_closed_once_witness :
  exists (evs : list Event) (c : Outcome unit),
    history (fst (run_tests
                    (sleeping (Raise "invalid sleep") (scripted (Return true) []))
                    initial_state))
    = (Connect (Return true) :: evs ++ [Close c])%list
    /\ forallb within_suite evs = true
    /\ c = on_close (sleeping (Raise "invalid sleep")
                              (scripted (Return true) []))
                    (Connect (Return true) :: evs).
Proof.
  refine (connection_closed_once
            (sleeping (Raise "invalid sleep") (scripted (Return true) [])) _).
  vm_compute. reflexivity.
Defined.

Lemma interrupt_caught_within_suite_witness :
  snd (main (scripted KeyboardInterrupt [])) = Interrupted
  /\ snd (main (closing KeyboardInterrupt (scripted (Return true) [])))
     = Interrupted
  /\ snd (main (scripted (Return true) [KeyboardInterrupt])) = SysExit 1
  /\ (1 = 0 \/ 1 = 1).
Proof.
  split; [|split; [|split]].
  - apply (proj1 (interrupt_caught_within_suite
                    (scripted KeyboardInterrupt []))).
    reflexivity.
  - refine (proj1 (proj1 (proj2 (interrupt_caught_within_suite
                                   (closing KeyboardInterrupt
                                            (scripted (Return true) []))))
                         eq_refl
                         (removelast
                            (history
                               (fst (main (closing KeyboardInterrupt
                                                   (scripted (Return true) []))))))
                         KeyboardInterrupt _) eq_refl).
    vm_compute. reflexivity.
  - refine (proj2 (proj1 (proj2 (interrupt_caught_within_suite
                                   (scripted (Return true) [KeyboardInterrupt])))
                         eq_refl
                         (removelast
                            (history
                               (fst (main (scripted (Return true)
                                                    [KeyboardInterrupt])))))
                         (Return tt) _) eq_refl _).
    + vm_compute. reflexivity.
    + vm_compute. reflexivity.
  - apply (proj2 (proj2 (interrupt_caught_within_suite
                           (scripted (Return false) []))) 1).
    vm_compute. reflexivity.
Defined.

End Further_witnesses.
